(** * Users_Connector: the DHIS2 users web data connector (src/js/connector.js)

    A shallow embedding of the connector script and of the JavaScript
    built-ins it calls, followed by the properties of the fetch-and-flatten
    pipeline and of the host adapter (init / getSchema / getData / submit).

    Layout:
    - [jsstring]: JavaScript strings as sequences of UTF-16 code units;
    - [value]: the values JSON.parse can produce, plus [Undefined];
    - the built-ins the script uses: property read, [||], [?.], ToString,
      Array.prototype.map / join, template literals, btoa, JSON.stringify of
      an object literal, JSON.parse;
    - the script itself: showLoader, hideLoader, fetchDataForWDC,
      updateDataTable, showStatus, the connector's init / getSchema / getData
      and the two button handlers;
    - the theorems. *)

From Stdlib Require Import List NArith ZArith String Ascii Bool Lia DecimalString.
Import ListNotations.

#[local] Set Warnings "-register-all".

Local Open Scope N_scope.
Local Open Scope list_scope.

(* ================================================================== *)
(** * Strings *)

(** A JavaScript string is a sequence of 16-bit code units. *)
Definition jsstring : Type := list N.

(** [str "..."] is the JavaScript string literal with the given (ASCII)
    characters. *)
Definition str (s : string) : jsstring :=
  map N_of_ascii (list_ascii_of_string s).

Fixpoint jsstring_eqb (a b : jsstring) : bool :=
  match a, b with
  | [], [] => true
  | x :: a', y :: b' => (x =? y) && jsstring_eqb a' b'
  | _, _ => false
  end.

(** Decimal digits of a non-negative integer, as [String(n)] prints it. *)
Definition decimal (n : N) : jsstring :=
  str (NilEmpty.string_of_uint (N.to_uint n)).

(** [String.prototype.concat] over a list of pieces. *)
Definition concat_all (l : list jsstring) : jsstring := List.concat l.

(* ================================================================== *)
(** * Errors and completions *)

(** The classes of the exceptions that can arise in the script. *)
Inductive ErrorClass : Type :=
| Error                   (* [new Error(msg)], line 61 *)
| TypeError               (* raised by the engine *)
| SyntaxError             (* raised by JSON.parse / response.json() *)
| InvalidCharacterError.  (* the DOMException btoa raises *)

Record JsError : Type := mkError {
  name : ErrorClass;
  message : jsstring
}.

(** What makes the engine raise a TypeError in this script. *)
Inductive TypeErrorCause : Type :=
| ReadOfUndefined (prop : jsstring)  (* [undefined.prop] *)
| ReadOfNull (prop : jsstring)       (* [null.prop] *)
| NotAFunction (prop : jsstring)     (* [x.prop(...)] where x.prop is not callable *)
| NotPrimitive.                      (* an object with no usable toString/valueOf *)

(** The result of evaluating an expression or a statement list: a value, or
    an exception thrown. *)
Inductive completion (A : Type) : Type :=
| Normal (a : A)
| Throw (e : JsError).
Arguments Normal {A} a.
Arguments Throw {A} e.

Definition bind {A B : Type} (c : completion A) (k : A -> completion B)
  : completion B :=
  match c with
  | Normal a => k a
  | Throw e => Throw e
  end.

Notation "x <- c ;; k" := (bind c (fun x => k))
  (at level 61, c at next level, right associativity).

(** The state of a settled promise. *)
Inductive promise (A : Type) : Type :=
| Fulfilled (a : A)
| Rejected (e : JsError).
Arguments Fulfilled {A} a.
Arguments Rejected {A} e.

(** Running a [then] callback on a fulfilled promise: a thrown exception
    rejects the derived promise. *)
Definition settle {A : Type} (c : completion A) : promise A :=
  match c with
  | Normal a => Fulfilled a
  | Throw e => Rejected e
  end.

Fixpoint mapM {A B : Type} (f : A -> completion B) (l : list A)
  : completion (list B) :=
  match l with
  | [] => Normal []
  | a :: l' => b <- f a ;; bs <- mapM f l' ;; Normal (b :: bs)
  end.

(* ================================================================== *)
(** * Text-level built-ins *)

(** ** JSON white space and tokens *)

(** JSON white space: space, tab, line feed, carriage return. *)
Definition is_ws (c : N) : bool :=
  (c =? 32) || (c =? 9) || (c =? 10) || (c =? 13).

Fixpoint skip_ws (s : jsstring) : jsstring :=
  match s with
  | [] => []
  | c :: r => if is_ws c then skip_ws r else s
  end.

Definition is_digit (c : N) : bool := (48 <=? c) && (c <=? 57).

(** The longest prefix of digits, and what follows it. *)
Fixpoint span_digits (s : jsstring) : jsstring * jsstring :=
  match s with
  | [] => ([], [])
  | c :: r =>
      if is_digit c
      then let (ds, rest) := span_digits r in (c :: ds, rest)
      else ([], s)
  end.

(** [strip_prefix p s] is what follows [p] in [s], when [s] starts with [p]. *)
Fixpoint strip_prefix (p s : jsstring) : option jsstring :=
  match p, s with
  | [], _ => Some s
  | x :: p', y :: s' => if x =? y then strip_prefix p' s' else None
  | _ :: _, [] => None
  end.

(** ** Hexadecimal escapes *)

(** The lower-case hexadecimal digit of a value below 16. *)
Definition hex_digit (d : N) : N := if d <? 10 then 48 + d else 87 + d.

(** The value of a hexadecimal digit of either case. *)
Definition hex_value (c : N) : option N :=
  if is_digit c then Some (c - 48)
  else if (97 <=? c) && (c <=? 102) then Some (c - 87)
  else if (65 <=? c) && (c <=? 70) then Some (c - 55)
  else None.

(** [UnicodeEscape]: backslash, [u] and four lower-case hexadecimal digits. *)
Definition UnicodeEscape (c : N) : jsstring :=
  [92; 117; hex_digit (c / 4096 mod 16); hex_digit (c / 256 mod 16);
   hex_digit (c / 16 mod 16); hex_digit (c mod 16)].

Definition hex4_value (h1 h2 h3 h4 : N) : option N :=
  match hex_value h1, hex_value h2, hex_value h3, hex_value h4 with
  | Some a, Some b, Some c, Some d => Some (4096 * a + 256 * b + 16 * c + d)
  | _, _, _, _ => None
  end.

(** ** JSON.stringify on strings: QuoteJSONString *)

Definition is_leading_surrogate (c : N) : bool := (55296 <=? c) && (c <=? 56319).
Definition is_trailing_surrogate (c : N) : bool := (56320 <=? c) && (c <=? 57343).

(** One code unit that is not part of a surrogate pair. *)
Definition quote_unit (c : N) : jsstring :=
  if c =? 8 then [92; 98]          (* \b *)
  else if c =? 9 then [92; 116]    (* \t *)
  else if c =? 10 then [92; 110]   (* \n *)
  else if c =? 12 then [92; 102]   (* \f *)
  else if c =? 13 then [92; 114]   (* \r *)
  else if c =? 34 then [92; 34]    (* the double quote *)
  else if c =? 92 then [92; 92]    (* the backslash *)
  else if (c <? 32) || is_leading_surrogate c || is_trailing_surrogate c
       then UnicodeEscape c
  else [c].

(** The code points of the string in turn: a surrogate pair is copied, a
    lone surrogate and a control character are escaped. *)
Fixpoint quote_units (s : jsstring) : jsstring :=
  match s with
  | [] => []
  | c :: r =>
      match r with
      | d :: r' =>
          if is_leading_surrogate c && is_trailing_surrogate d
          then c :: d :: quote_units r'
          else quote_unit c ++ quote_units r
      | [] => quote_unit c
      end
  end.

Definition QuoteJSONString (s : jsstring) : jsstring :=
  34 :: quote_units s ++ [34].

(** ** JSON.parse on strings and numbers *)

(** The character a one-letter escape stands for. *)
Definition simple_escape (e : N) : option N :=
  if e =? 34 then Some 34          (* quote *)
  else if e =? 92 then Some 92     (* backslash *)
  else if e =? 47 then Some 47     (* \/ *)
  else if e =? 98 then Some 8      (* \b *)
  else if e =? 102 then Some 12    (* \f *)
  else if e =? 110 then Some 10    (* \n *)
  else if e =? 114 then Some 13    (* \r *)
  else if e =? 116 then Some 9     (* \t *)
  else None.

(** A JSON string after its opening quote: its value and what follows the
    closing quote. *)
Fixpoint lex_string (s : jsstring) : option (jsstring * jsstring) :=
  match s with
  | [] => None
  | c :: r =>
      if c =? 34 then Some ([], r)
      else if c =? 92 then
        match r with
        | [] => None
        | e :: r1 =>
            if e =? 117 then
              match r1 with
              | h1 :: h2 :: h3 :: h4 :: r2 =>
                  match hex4_value h1 h2 h3 h4, lex_string r2 with
                  | Some u, Some (t, rest) => Some (u :: t, rest)
                  | _, _ => None
                  end
              | _ => None
              end
            else
              match simple_escape e, lex_string r1 with
              | Some u, Some (t, rest) => Some (u :: t, rest)
              | _, _ => None
              end
        end
      else if c <? 32 then None
      else
        match lex_string r with
        | Some (t, rest) => Some (c :: t, rest)
        | None => None
        end
  end.

(** The integer part of a JSON number: [0], or a non-zero digit and digits. *)
Definition lex_int (s : jsstring) : option (jsstring * jsstring) :=
  match s with
  | [] => None
  | c :: r =>
      if c =? 48 then Some ([48], r)
      else if is_digit c then let (ds, rest) := span_digits r in Some (c :: ds, rest)
      else None
  end.

(** The optional fraction: a point and at least one digit. *)
Definition lex_frac (s : jsstring) : option (jsstring * jsstring) :=
  match s with
  | c :: r =>
      if c =? 46 then
        match span_digits r with
        | ([], _) => None
        | (ds, rest) => Some (c :: ds, rest)
        end
      else Some ([], s)
  | [] => Some ([], s)
  end.

(** The optional exponent: [e] or [E], an optional sign, at least one digit. *)
Definition lex_exp (s : jsstring) : option (jsstring * jsstring) :=
  match s with
  | c :: r =>
      if (c =? 101) || (c =? 69) then
        let (sg, r1) :=
          match r with
          | d :: r' => if (d =? 43) || (d =? 45) then ([d], r') else ([], r)
          | [] => ([], r)
          end in
        match span_digits r1 with
        | ([], _) => None
        | (ds, rest) => Some (c :: sg ++ ds, rest)
        end
      else Some ([], s)
  | [] => Some ([], s)
  end.

(** A JSON number: its text and what follows it. *)
Definition lex_number (s : jsstring) : option (jsstring * jsstring) :=
  let (sg, s1) :=
    match s with
    | c :: r => if c =? 45 then ([c], r) else ([], s)
    | [] => ([], s)
    end in
  match lex_int s1 with
  | None => None
  | Some (i, s2) =>
      match lex_frac s2 with
      | None => None
      | Some (f, s3) =>
          match lex_exp s3 with
          | None => None
          | Some (e, s4) => Some (sg ++ i ++ f ++ e, s4)
          end
      end
  end.

(** ** btoa: base64 *)

Definition b64_char (i : N) : N :=
  if i <? 26 then 65 + i
  else if i <? 52 then 97 + (i - 26)
  else if i <? 62 then 48 + (i - 52)
  else if i =? 62 then 43
  else 47.

Fixpoint b64_encode (s : jsstring) : jsstring :=
  match s with
  | [] => []
  | [a] => [b64_char (a / 4); b64_char (a mod 4 * 16); 61; 61]
  | [a; b] =>
      [b64_char (a / 4); b64_char (a mod 4 * 16 + b / 16);
       b64_char (b mod 16 * 4); 61]
  | a :: b :: c :: r =>
      b64_char (a / 4) :: b64_char (a mod 4 * 16 + b / 16)
      :: b64_char (b mod 16 * 4 + c / 64) :: b64_char (c mod 64)
      :: b64_encode r
  end.

(* ================================================================== *)
(** * The host's schema types *)

(** The members of [tableau.dataTypeEnum] the script names. *)
Module dataTypeEnum.
Inductive t : Type := string | datetime | boolean.
End dataTypeEnum.

(** A column of a table: [{ id, alias, dataType }]. *)
Module ColumnInfo.
Record t : Type := mk {
  id : jsstring;
  alias : jsstring;
  dataType : dataTypeEnum.t
}.
End ColumnInfo.

(** A table: [{ id, columns }]. *)
Module TableInfo.
Record t : Type := mk {
  id : jsstring;
  columns : list ColumnInfo.t
}.
End TableInfo.

(* ================================================================== *)
(** * The network *)

(** What [fetch(url, { headers: { Authorization } })] sends. *)
Record Request : Type := mkRequest {
  url : jsstring;
  Authorization : jsstring
}.

(** An HTTP response: status line and body text. *)
Record Response : Type := mkResponse {
  status : N;
  statusText : jsstring;
  body : jsstring
}.

(** [response.ok]: the status is in the range 200-299. *)
Definition ok (r : Response) : bool := (200 <=? status r) && (status r <=? 299).

(** The promise [fetch] returns settles with a response, or rejects when no
    response is obtained. *)
Inductive FetchResult : Type :=
| Responds (r : Response)
| NetworkFailure (e : JsError).

(* ================================================================== *)
(** * The page *)

(** A network that answers every request with the same response. *)
Definition answering (r : Response) : Request -> FetchResult :=
  fun _ => Responds r.

(** The three text inputs of the form. *)
Record Inputs : Type := mkInputs {
  baseUrl_value : jsstring;
  username_value : jsstring;
  password_value : jsstring
}.

(** The spinner and the progress bar, with the two timers of the script:
    the progress interval and hideLoader's delayed hiding.  The timers'
    callbacks run in later tasks and are not part of the model. *)
Record Loader : Type := mkLoader {
  loader_display : jsstring;
  progressBar_display : jsstring;
  progressBar_value : N;
  progressInterval : bool;
  hide_scheduled : bool
}.

(** The status line under the buttons. *)
Record Status : Type := mkStatus {
  textContent : jsstring;
  className : jsstring;
  status_display : jsstring
}.

(* ================================================================== *)
(** * The engine *)

(** IEEE-754 doubles and the engine-specific texts are kept abstract: the
    script only tests numbers for truthiness and prints them. *)
Class Engine : Type := {
  (** the numbers *)
  number : Type;
  (** [ToBoolean] on a number: false for +0, -0 and NaN *)
  Number_ToBoolean : number -> bool;
  (** [Number::toString] *)
  Number_toString : number -> jsstring;
  (** the number a JSON numeric literal denotes *)
  JSONNumber : jsstring -> number;
  (** the message the engine gives a TypeError *)
  TypeError_message : TypeErrorCause -> jsstring;
  (** the message JSON.parse gives its SyntaxError on a text *)
  SyntaxError_message : jsstring -> jsstring;
  (** the message of btoa's InvalidCharacterError *)
  InvalidCharacter_message : jsstring
}.

(** The digits of a numeric literal before its exponent. *)
Fixpoint mantissa (text : jsstring) : jsstring :=
  match text with
  | [] => []
  | c :: r => if (c =? 101) || (c =? 69) then [] else c :: mantissa r
  end.

(** An engine to run the script on concrete inputs.  A number is kept as
    the text of its literal, which is also how it prints (exact for a
    literal in canonical form), and it is truthy when its mantissa has a
    non-zero digit (exact unless the literal underflows); the messages are
    V8's. *)
Definition sample_TypeError_message (c : TypeErrorCause) : jsstring :=
  match c with
  | ReadOfUndefined p =>
      str "Cannot read properties of undefined (reading '" ++ p ++ str "')"
  | ReadOfNull p =>
      str "Cannot read properties of null (reading '" ++ p ++ str "')"
  | NotAFunction p => str "(intermediate value)." ++ p ++ str " is not a function"
  | NotPrimitive => str "Cannot convert object to primitive value"
  end.

Definition sample : Engine := {|
  number := jsstring;
  Number_ToBoolean :=
    fun text => existsb (fun c => (49 <=? c) && (c <=? 57)) (mantissa text);
  Number_toString := fun text => text;
  JSONNumber := fun text => text;
  TypeError_message := sample_TypeError_message;
  SyntaxError_message := fun _ => str "Unexpected token in JSON";
  InvalidCharacter_message :=
    str "The string to be encoded contains characters outside of the Latin1 range."
|}.

Section Connector.

Context {E : Engine}.

Definition type_error {A : Type} (c : TypeErrorCause) : completion A :=
  Throw (mkError TypeError (TypeError_message c)).

(* ------------------------------------------------------------------ *)
(** ** Values *)

(** The values JSON.parse produces, and [undefined] (the value of a missing
    property).  An object is its list of own properties; a property read
    takes the first entry with the key. *)
Inductive value : Type :=
| Undefined
| Null
| Bool (b : bool)
| Num (n : number)
| Str (s : jsstring)
| Arr (elems : list value)
| Obj (props : list (jsstring * value)).

Fixpoint lookup (k : jsstring) (props : list (jsstring * value)) : option value :=
  match props with
  | [] => None
  | (k', v) :: rest => if jsstring_eqb k k' then Some v else lookup k rest
  end.

Definition has_own (k : jsstring) (props : list (jsstring * value)) : bool :=
  match lookup k props with Some _ => true | None => false end.

(** The value of property [k] of an object with the given own properties. *)
Definition own (k : jsstring) (props : list (jsstring * value)) : value :=
  match lookup k props with Some x => x | None => Undefined end.

(** [v.p] for the property names the script reads.  None of them is defined
    on Object.prototype, Array.prototype or on the wrappers of the
    primitives, so only an object's own properties can answer; reading a
    property of [undefined] or [null] throws. *)
Definition Get (v : value) (p : jsstring) : completion value :=
  match v with
  | Undefined => type_error (ReadOfUndefined p)
  | Null => type_error (ReadOfNull p)
  | Obj props => Normal (own p props)
  | _ => Normal Undefined
  end.

(** [v?.p]: short-circuits to [undefined] on [undefined] and [null]. *)
Definition GetOptional (v : value) (p : jsstring) : completion value :=
  match v with
  | Undefined | Null => Normal Undefined
  | _ => Get v p
  end.

Definition ToBoolean (v : value) : bool :=
  match v with
  | Undefined | Null => false
  | Bool b => b
  | Num n => Number_ToBoolean n
  | Str s => match s with [] => false | _ => true end
  | Arr _ | Obj _ => true
  end.

(** [a || b] with [b] already a value (every right operand in the script is
    a literal or a DOM read without effect). *)
Definition or_else (a b : value) : value :=
  if ToBoolean a then a else b.

(** [ToString].  An array prints as its elements joined by a comma, with
    [undefined] and [null] elements printed empty.  A plain object prints
    through Object.prototype.toString unless an own (hence non-callable)
    [toString] property shadows it, in which case no method yields a
    primitive and the conversion throws. *)
Fixpoint ToString (v : value) : completion jsstring :=
  match v with
  | Undefined => Normal (str "undefined")
  | Null => Normal (str "null")
  | Bool true => Normal (str "true")
  | Bool false => Normal (str "false")
  | Num n => Normal (Number_toString n)
  | Str s => Normal s
  | Arr elems =>
      (fix join_comma (first : bool) (l : list value) : completion jsstring :=
         match l with
         | [] => Normal []
         | x :: l' =>
             s <- match x with
                  | Undefined | Null => Normal []
                  | _ => ToString x
                  end ;;
             r <- join_comma false l' ;;
             Normal ((if first then [] else str ",") ++ s ++ r)
         end) true elems
  | Obj props =>
      if has_own (str "toString") props then type_error NotPrimitive
      else Normal (str "[object Object]")
  end.

(** [Array.prototype.join(sep)] on an array with the given elements. *)
Fixpoint join_from (first : bool) (sep : jsstring) (l : list value)
  : completion jsstring :=
  match l with
  | [] => Normal []
  | x :: l' =>
      s <- match x with
           | Undefined | Null => Normal []
           | _ => ToString x
           end ;;
      r <- join_from false sep l' ;;
      Normal ((if first then [] else sep) ++ s ++ r)
  end.

Definition Array_join (sep : jsstring) (l : list value) : completion jsstring :=
  join_from true sep l.

(** [x.map(f)]: Array.prototype.map when [x] is an array; otherwise [x.map]
    is read, which throws on [undefined] and [null] and is not callable on
    any other JSON value. *)
Definition Array_map (x : value) (f : value -> completion value)
  : completion (list value) :=
  match x with
  | Arr elems => mapM f elems
  | Undefined => type_error (ReadOfUndefined (str "map"))
  | Null => type_error (ReadOfNull (str "map"))
  | _ => type_error (NotAFunction (str "map"))
  end.

(** [btoa]: code units above 255 are refused. *)
Definition btoa (s : jsstring) : completion jsstring :=
  if forallb (fun c => c <=? 255) s then Normal (b64_encode s)
  else Throw (mkError InvalidCharacterError InvalidCharacter_message).

(* ------------------------------------------------------------------ *)
(** ** JSON.stringify *)

(** [SerializeJSONProperty] without indentation, for a value whose objects
    list each own key once, in property order.  [None] stands for the
    [undefined] result: such a property is left out of an object and printed
    [null] in an array. *)
Fixpoint SerializeJSONProperty (v : value) : option jsstring :=
  match v with
  | Undefined => None
  | Null => Some (str "null")
  | Bool true => Some (str "true")
  | Bool false => Some (str "false")
  | Num n => Some (Number_toString n)
  | Str s => Some (QuoteJSONString s)
  | Arr elems =>
      Some (str "[" ++
            (fix elements (first : bool) (l : list value) : jsstring :=
               match l with
               | [] => []
               | x :: l' =>
                   (if first then [] else str ",")
                   ++ match SerializeJSONProperty x with
                      | Some t => t
                      | None => str "null"
                      end
                   ++ elements false l'
               end) true elems
            ++ str "]")
  | Obj props =>
      Some (str "{" ++
            (fix members (first : bool) (l : list (jsstring * value)) : jsstring :=
               match l with
               | [] => []
               | (k, x) :: l' =>
                   match SerializeJSONProperty x with
                   | Some t =>
                       (if first then [] else str ",")
                       ++ QuoteJSONString k ++ str ":" ++ t ++ members false l'
                   | None => members first l'
                   end
               end) true props
            ++ str "}")
  end.

(** [JSON.stringify(v)]. *)
Definition JSON_stringify (v : value) : value :=
  match SerializeJSONProperty v with
  | Some text => Str text
  | None => Undefined
  end.

(* ------------------------------------------------------------------ *)
(** ** JSON.parse *)

(** The outcome of parsing a prefix of the text: a value and the rest of the
    text, a syntax error, or recursion budget exhausted. *)
Inductive presult : Type :=
| POk (v : value) (rest : jsstring)
| PSyntax
| PFuel.

(** Defining a property: a repeated key keeps its place and takes the later
    value. *)
Fixpoint set_prop (k : jsstring) (v : value) (props : list (jsstring * value))
  : list (jsstring * value) :=
  match props with
  | [] => [(k, v)]
  | (k', v') :: rest =>
      if jsstring_eqb k k' then (k', v) :: rest
      else (k', v') :: set_prop k v rest
  end.

(** A scalar: [true], [false], [null] or a number. *)
Definition parse_scalar (s : jsstring) : presult :=
  match strip_prefix (str "true") s with
  | Some rest => POk (Bool true) rest
  | None =>
  match strip_prefix (str "false") s with
  | Some rest => POk (Bool false) rest
  | None =>
  match strip_prefix (str "null") s with
  | Some rest => POk Null rest
  | None =>
  match lex_number s with
  | Some (text, rest) => POk (Num (JSONNumber text)) rest
  | None => PSyntax
  end end end end.

(** The JSON grammar by recursive descent.  [parse_value] reads one value
    after white space; [parse_elements] reads the elements of an array up to
    its closing bracket; [parse_members] reads the members of an object up
    to its closing brace. *)
Fixpoint parse_value (fuel : nat) (s : jsstring) : presult :=
  match fuel with
  | O => PFuel
  | S fuel' =>
      match skip_ws s with
      | [] => PSyntax
      | c :: r =>
          if c =? 123 then                       (* opening brace *)
            match skip_ws r with
            | d :: r' =>
                if d =? 125 then POk (Obj []) r'
                else parse_members fuel' (d :: r') []
            | [] => PSyntax
            end
          else if c =? 91 then                   (* opening bracket *)
            match skip_ws r with
            | d :: r' =>
                if d =? 93 then POk (Arr []) r'
                else parse_elements fuel' (d :: r') []
            | [] => PSyntax
            end
          else if c =? 34 then                   (* string *)
            match lex_string r with
            | Some (t, rest) => POk (Str t) rest
            | None => PSyntax
            end
          else parse_scalar (c :: r)
      end
  end
with parse_elements (fuel : nat) (s : jsstring) (acc : list value) : presult :=
  match fuel with
  | O => PFuel
  | S fuel' =>
      match parse_value fuel' s with
      | POk v rest =>
          match skip_ws rest with
          | d :: r =>
              if d =? 44 then parse_elements fuel' r (v :: acc)   (* comma *)
              else if d =? 93 then POk (Arr (rev (v :: acc))) r   (* closing bracket *)
              else PSyntax
          | [] => PSyntax
          end
      | other => other
      end
  end
with parse_members (fuel : nat) (s : jsstring) (acc : list (jsstring * value))
  : presult :=
  match fuel with
  | O => PFuel
  | S fuel' =>
      match skip_ws s with
      | q :: r =>
          if q =? 34 then
            match lex_string r with
            | Some (k, rest) =>
                match skip_ws rest with
                | c :: r1 =>
                    if c =? 58 then                             (* colon *)
                      match parse_value fuel' r1 with
                      | POk v rest1 =>
                          match skip_ws rest1 with
                          | d :: r2 =>
                              if d =? 44 then parse_members fuel' r2 (set_prop k v acc)
                              else if d =? 125 then POk (Obj (set_prop k v acc)) r2
                              else PSyntax
                          | [] => PSyntax
                          end
                      | other => other
                      end
                    else PSyntax
                | [] => PSyntax
                end
            | None => PSyntax
            end
          else PSyntax
      | [] => PSyntax
      end
  end.

Definition syntax_error {A : Type} (text : jsstring) : completion A :=
  Throw (mkError SyntaxError (SyntaxError_message text)).

(** The JSON text as a whole: one value, white space around it, nothing
    else.  The budget is enough for every text (see [parse_value_fuel]). *)
Definition JSON_parse_text (text : jsstring) : completion value :=
  match parse_value (2 * List.length text + 1) text with
  | POk v rest =>
      match skip_ws rest with
      | [] => Normal v
      | _ :: _ => syntax_error text
      end
  | _ => syntax_error text
  end.

(** [JSON.parse(v)]: the argument is converted to a string first. *)
Definition JSON_parse (v : value) : completion value :=
  text <- ToString v ;; JSON_parse_text text.

(* ================================================================== *)
(** * The connector script *)

(** What the network answers to a request. *)
Variable fetch : Request -> FetchResult.

(** The page the script runs in: its module variable [fetchedData], the
    elements it reads and writes (each lookup by id or selector is taken to
    find its element), and the requests it has sent. *)
Record Page : Type := mkPage {
  inputs : Inputs;
  fetchedData : list value;
  loader : Loader;
  tbody_innerHTML : jsstring;
  results_display : jsstring;
  status_line : Status;
  requests : list Request
}.

Definition set_fetchedData (rows : list value) (pg : Page) : Page :=
  mkPage (inputs pg) rows (loader pg) (tbody_innerHTML pg)
         (results_display pg) (status_line pg) (requests pg).

Definition set_loader (l : Loader) (pg : Page) : Page :=
  mkPage (inputs pg) (fetchedData pg) l (tbody_innerHTML pg)
         (results_display pg) (status_line pg) (requests pg).

Definition set_tbody_innerHTML (html : jsstring) (pg : Page) : Page :=
  mkPage (inputs pg) (fetchedData pg) (loader pg) html
         (results_display pg) (status_line pg) (requests pg).

Definition set_results_display (d : jsstring) (pg : Page) : Page :=
  mkPage (inputs pg) (fetchedData pg) (loader pg) (tbody_innerHTML pg)
         d (status_line pg) (requests pg).

Definition set_status_line (st : Status) (pg : Page) : Page :=
  mkPage (inputs pg) (fetchedData pg) (loader pg) (tbody_innerHTML pg)
         (results_display pg) st (requests pg).

Definition send (req : Request) (pg : Page) : Page :=
  mkPage (inputs pg) (fetchedData pg) (loader pg) (tbody_innerHTML pg)
         (results_display pg) (status_line pg) (requests pg ++ [req]).

(** showLoader (lines 12-21). *)
Definition showLoader (pg : Page) : Page :=
  set_loader (mkLoader (str "block") (str "block") 0 true
                       (hide_scheduled (loader pg))) pg.

(** hideLoader (lines 27-35). *)
Definition hideLoader (pg : Page) : Page :=
  set_loader (mkLoader (loader_display (loader pg))
                       (progressBar_display (loader pg)) 100 false true) pg.

(** showStatus (lines 132-137). *)
Definition showStatus (msg type : jsstring) (pg : Page) : Page :=
  set_status_line (mkStatus msg (str "status " ++ type) (str "block")) pg.

(** The keys of a row in the order updateDataTable prints them. *)
Definition printed_keys : list jsstring :=
  [str "id"; str "username"; str "firstName"; str "surname";
   str "displayName"; str "created"; str "lastUpdated"; str "gender";
   str "email"; str "phone"; str "jobTitle"; str "orgUnits"; str "roles";
   str "groups"; str "lastLogin"; str "disabled"].

Definition nl : jsstring := [10].

(** The template literal of lines 105-124 for one row. *)
Definition row_html (r : value) : completion jsstring :=
  cells <- mapM (fun k => v <- Get r k ;; ToString v) printed_keys ;;
  Normal (nl ++ str "      <tr>" ++ nl
          ++ concat_all
               (map (fun c => str "        <td>" ++ c ++ str "</td>" ++ nl) cells)
          ++ str "      </tr>" ++ nl ++ str "    ").

(** updateDataTable (lines 102-125). *)
Definition updateDataTable (rows : list value) (pg : Page) : completion Page :=
  htmls <- mapM row_html rows ;;
  Normal (set_tbody_innerHTML (concat_all htmls) pg).

(** The names of a list relation joined by a semicolon and a space:
    [(rel || []).map(o => o.name).join('; ')]. *)
Definition joined_names (rel : value) : completion value :=
  names <- Array_map (or_else rel (Arr [])) (fun o => Get o (str "name")) ;;
  s <- Array_join (str "; ") names ;;
  Normal (Str s).

(** The arrow function of lines 66-83: one raw user to one flat row. *)
Definition FlatUserRow (u : value) : completion value :=
  id <- Get u (str "id") ;;
  username <- Get u (str "username") ;;
  firstName <- Get u (str "firstName") ;;
  surname <- Get u (str "surname") ;;
  displayName <- Get u (str "displayName") ;;
  created <- Get u (str "created") ;;
  lastUpdated <- Get u (str "lastUpdated") ;;
  gender <- Get u (str "gender") ;;
  email <- Get u (str "email") ;;
  phoneNumber <- Get u (str "phoneNumber") ;;
  jobTitle <- Get u (str "jobTitle") ;;
  disabled <- Get u (str "disabled") ;;
  organisationUnits <- Get u (str "organisationUnits") ;;
  orgUnits <- joined_names organisationUnits ;;
  userRoles <- Get u (str "userRoles") ;;
  roles <- joined_names userRoles ;;
  userGroups <- Get u (str "userGroups") ;;
  groups <- joined_names userGroups ;;
  userCredentials <- Get u (str "userCredentials") ;;
  lastLogin <- GetOptional userCredentials (str "lastLogin") ;;
  Normal (Obj [
    (str "id", id);
    (str "username", username);
    (str "firstName", firstName);
    (str "surname", surname);
    (str "displayName", displayName);
    (str "created", created);
    (str "lastUpdated", lastUpdated);
    (str "gender", or_else gender (Str []));
    (str "email", or_else email (Str []));
    (str "phone", or_else phoneNumber (Str []));
    (str "jobTitle", or_else jobTitle (Str []));
    (str "disabled", or_else disabled (Bool false));
    (str "orgUnits", orgUnits);
    (str "roles", roles);
    (str "groups", groups);
    (str "lastLogin", or_else lastLogin (Str []))
  ]).

(** The default of the parameter, [config = {}]: it replaces [undefined]. *)
Definition default_config (config : value) : value :=
  match config with
  | Undefined => Obj []
  | _ => config
  end.

(** The query of line 49-52, after the base. *)
Definition users_query : jsstring :=
  str "/api/users.json?fields="
  ++ str "id,username,firstName,surname,displayName,created,lastUpdated,gender,"
  ++ str "email,phoneNumber,jobTitle,organisationUnits[id,name],userRoles[id,name],"
  ++ str "userGroups[id,name],userCredentials[username,lastLogin]&paging=false".

(** Lines 44-52: the connection parameters, from the configuration or else
    from the inputs, and the URL. *)
Definition connection (config : value) (pg : Page)
  : completion (jsstring * value * value) :=
  b <- Get config (str "baseUrl") ;;
  let base := or_else b (Str (baseUrl_value (inputs pg))) in
  u <- Get config (str "username") ;;
  let user := or_else u (Str (username_value (inputs pg))) in
  p <- Get config (str "password") ;;
  let pass := or_else p (Str (password_value (inputs pg))) in
  base_text <- ToString base ;;
  Normal (base_text ++ users_query, user, pass).

(** Line 58: the Authorization header. *)
Definition basic_auth (user pass : value) : completion jsstring :=
  user_text <- ToString user ;;
  pass_text <- ToString pass ;;
  encoded <- btoa (user_text ++ str ":" ++ pass_text) ;;
  Normal (str "Basic " ++ encoded).

(** The first [then] (lines 60-63). *)
Definition on_response (r : FetchResult) : promise value :=
  match r with
  | NetworkFailure e => Rejected e
  | Responds response =>
      if negb (ok response)
      then Rejected (mkError Error
                       (str "HTTP " ++ decimal (status response) ++ str ": "
                        ++ statusText response))
      else settle (JSON_parse_text (body response))
  end.

(** The second [then] (lines 64-90). *)
Definition on_json (json : value) (pg : Page) : promise (list value) * Page :=
  match (users <- Get json (str "users") ;; Array_map users FlatUserRow) with
  | Throw e => (Rejected e, pg)
  | Normal rows =>
      let pg := set_fetchedData rows pg in
      match updateDataTable (fetchedData pg) pg with
      | Throw e => (Rejected e, pg)
      | Normal pg =>
          let pg := set_results_display (str "block") pg in
          let pg := hideLoader pg in
          let pg :=
            showStatus (str "Loaded "
                        ++ decimal (N.of_nat (List.length (fetchedData pg)))
                        ++ str " users") (str "success") pg in
          (Fulfilled (fetchedData pg), pg)
      end
  end.

(** The [catch] (lines 91-95). *)
Definition on_error (err : JsError) (pg : Page) : promise (list value) * Page :=
  let pg := hideLoader pg in
  let pg := showStatus (message err) (str "error") pg in
  (Rejected err, pg).

(** The promise chain of lines 57-95, once the response is in. *)
Definition fetch_chain (r : FetchResult) (pg : Page)
  : promise (list value) * Page :=
  match on_response r with
  | Rejected err => on_error err pg
  | Fulfilled json =>
      match on_json json pg with
      | (Rejected err, pg) => on_error err pg
      | (Fulfilled rows, pg) => (Fulfilled rows, pg)
      end
  end.

(** fetchDataForWDC (lines 42-96).  The result is an exception thrown
    before the promise exists, or the settled promise. *)
Definition fetchDataForWDC (config : value) (pg : Page)
  : completion (promise (list value)) * Page :=
  match connection (default_config config) pg with
  | Throw e => (Throw e, pg)
  | Normal (url, user, pass) =>
      let pg := showLoader pg in
      match basic_auth user pass with
      | Throw e => (Throw e, pg)
      | Normal auth =>
          let req := mkRequest url auth in
          let (p, pg) := fetch_chain (fetch req) (send req pg) in
          (Normal p, pg)
      end
  end.

(* ------------------------------------------------------------------ *)
(** ** The host adapter *)

(** The two properties of the [tableau] object the script assigns. *)
Record Tableau : Type := mkTableau {
  connectionData : value;
  connectionName : value
}.

(** The host operations the script calls. *)
Inductive HostCall : Type :=
| initCallback
| schemaCallback (tables : list TableInfo.t)
| appendRows (rows : list value)
| doneCallback
| abortWithError (msg : jsstring)
| submit.

(** One run of a host entry point, followed until its promise (if any) has
    settled: whether the call returned or threw, the host operations called,
    in order, and the page afterwards. *)
Record Run : Type := mkRun {
  outcome : completion unit;
  calls : list HostCall;
  page : Page
}.

(** connector.init (line 143). *)
Definition init (pg : Page) : Run := mkRun (Normal tt) [initCallback] pg.

(** connector.getSchema (lines 145-165). *)
Definition getSchema (pg : Page) : Run :=
  let cols := [
    ColumnInfo.mk (str "id") (str "ID") dataTypeEnum.string;
    ColumnInfo.mk (str "username") (str "Username") dataTypeEnum.string;
    ColumnInfo.mk (str "firstName") (str "First Name") dataTypeEnum.string;
    ColumnInfo.mk (str "surname") (str "Last Name") dataTypeEnum.string;
    ColumnInfo.mk (str "displayName") (str "Display Name") dataTypeEnum.string;
    ColumnInfo.mk (str "created") (str "Created") dataTypeEnum.datetime;
    ColumnInfo.mk (str "lastUpdated") (str "Last Updated") dataTypeEnum.datetime;
    ColumnInfo.mk (str "gender") (str "Gender") dataTypeEnum.string;
    ColumnInfo.mk (str "email") (str "Email") dataTypeEnum.string;
    ColumnInfo.mk (str "phone") (str "Phone") dataTypeEnum.string;
    ColumnInfo.mk (str "jobTitle") (str "Job Title") dataTypeEnum.string;
    ColumnInfo.mk (str "orgUnits") (str "Org Units") dataTypeEnum.string;
    ColumnInfo.mk (str "roles") (str "Roles") dataTypeEnum.string;
    ColumnInfo.mk (str "groups") (str "Groups") dataTypeEnum.string;
    ColumnInfo.mk (str "lastLogin") (str "Last Login") dataTypeEnum.datetime;
    ColumnInfo.mk (str "disabled") (str "Disabled") dataTypeEnum.boolean
  ] in
  mkRun (Normal tt) [schemaCallback [TableInfo.mk (str "DHIS2Users") cols]] pg.

(** connector.getData (lines 167-175). *)
Definition getData (tableau : Tableau) (pg : Page) : Run :=
  match JSON_parse (connectionData tableau) with
  | Throw e => mkRun (Throw e) [] pg
  | Normal cfg =>
      match fetchDataForWDC cfg pg with
      | (Throw e, pg) => mkRun (Throw e) [] pg
      | (Normal (Fulfilled data), pg) =>
          mkRun (Normal tt) [appendRows data; doneCallback] pg
      | (Normal (Rejected err), pg) =>
          mkRun (Normal tt) [abortWithError (message err)] pg
      end
  end.

(** The click handler of the fetch button (lines 180-181). *)
Definition fetchButton_click (pg : Page) : completion (promise (list value)) * Page :=
  fetchDataForWDC Undefined pg.

(** The connection name of line 190; its fourth word is an en dash. *)
Definition connection_name : jsstring :=
  str "DHIS2 " ++ [8211] ++ str " All User Fields".

(** The click handler of the submit button (lines 183-192). *)
Definition submitButton_click (tableau : Tableau) (pg : Page)
  : Tableau * list HostCall :=
  let data :=
    JSON_stringify (Obj [
      (str "baseUrl", Str (baseUrl_value (inputs pg)));
      (str "username", Str (username_value (inputs pg)));
      (str "password", Str (password_value (inputs pg)))
    ]) in
  (mkTableau data (Str connection_name), [submit]).

(* ------------------------------------------------------------------ *)
(** ** The vocabulary of the specification *)

(** A ConnectionConfig: an object with the three string fields. *)
Definition ConnectionConfig (baseUrl username password : jsstring) : value :=
  Obj [(str "baseUrl", Str baseUrl);
       (str "username", Str username);
       (str "password", Str password)].

(** The names joined with a separator between neighbours, in order. *)
Fixpoint joined (sep : jsstring) (names : list jsstring) : jsstring :=
  match names with
  | [] => []
  | n :: rest =>
      match rest with
      | [] => n
      | _ :: _ => n ++ sep ++ joined sep rest
      end
  end.

(** A list relation of a raw user record and the names of its elements: the
    relation is absent, or it is an array whose elements each have a string
    [name]. *)
Inductive relation_names : value -> list jsstring -> Prop :=
| absent_relation : relation_names Undefined []
| listed_relation (elems : list value) (names : list jsstring) :
    Forall2 (fun o n => Get o (str "name") = Normal (Str n)) elems names ->
    relation_names (Arr elems) names.

(** The HttpError of the specification is the script's
    [new Error(`HTTP ${status}: ${statusText}`)]: its message carries the
    status code and the status text. *)
Definition HttpError (status : N) (statusText : jsstring) : JsError :=
  mkError Error (str "HTTP " ++ decimal status ++ str ": " ++ statusText).




(** A scalar: neither an array nor an object. *)
Definition scalar (v : value) : Prop :=
  match v with
  | Arr _ | Obj _ => False
  | _ => True
  end.

(** The scalar fields the mapping reads from a raw user record. *)
Definition scalar_keys : list jsstring :=
  [str "id"; str "username"; str "firstName"; str "surname";
   str "displayName"; str "created"; str "lastUpdated"; str "gender";
   str "email"; str "phoneNumber"; str "jobTitle"; str "disabled"].

(** The embedded credentials: absent, or an object with a scalar
    [lastLogin] (possibly missing). *)
Inductive credentials : value -> Prop :=
| absent_credentials : credentials Undefined
| held_credentials (c : list (jsstring * value)) :
    scalar (own (str "lastLogin") c) -> credentials (Obj c).

(** A RawUserRecord: an object with scalar identity and profile fields,
    three list relations and the embedded credentials. *)
Inductive RawUserRecord : value -> Prop :=
| raw_user (props : list (jsstring * value)) (ou ur ug : list jsstring) :
    Forall (fun k => scalar (own k props)) scalar_keys ->
    relation_names (own (str "organisationUnits") props) ou ->
    relation_names (own (str "userRoles") props) ur ->
    relation_names (own (str "userGroups") props) ug ->
    credentials (own (str "userCredentials") props) ->
    RawUserRecord (Obj props).

(** The 15 fields of the selector of the request. *)
Definition selector : list jsstring :=
  [str "id"; str "username"; str "firstName"; str "surname";
   str "displayName"; str "created"; str "lastUpdated"; str "gender";
   str "email"; str "phoneNumber"; str "jobTitle";
   str "organisationUnits[id,name]"; str "userRoles[id,name]";
   str "userGroups[id,name]"; str "userCredentials[username,lastLogin]"].

(** Every code unit is at most 255. *)
Definition latin1 (s : jsstring) : bool := forallb (fun c => c <=? 255) s.

(** The keys of a flat row, in the order of the object literal. *)
Definition row_keys : list jsstring :=
  [str "id"; str "username"; str "firstName"; str "surname";
   str "displayName"; str "created"; str "lastUpdated"; str "gender";
   str "email"; str "phone"; str "jobTitle"; str "disabled"; str "orgUnits";
   str "roles"; str "groups"; str "lastLogin"].

(** The fields the row copies from the source without a default. *)
Definition copied_keys : list jsstring :=
  [str "id"; str "username"; str "firstName"; str "surname";
   str "displayName"; str "created"; str "lastUpdated"].

(** The fields the row gives a default or computes by joining. *)
Definition defaulted_keys : list jsstring :=
  [str "gender"; str "email"; str "phone"; str "jobTitle"; str "disabled";
   str "orgUnits"; str "roles"; str "groups"; str "lastLogin"].

(* ------------------------------------------------------------------ *)
(** ** Sample inputs *)

(** A page with empty inputs and nothing shown yet. *)
Definition blank_page : Page :=
  mkPage (mkInputs [] [] []) [] (mkLoader (str "none") (str "none") 0 false false)
         [] (str "none") (mkStatus [] [] (str "none")) [].

(** A configuration for the DHIS2 demo server. *)
Definition demo_config : value :=
  ConnectionConfig (str "https://play.dhis2.org/demo") (str "admin") (str "district").

(** The record of the scenario of section 8 of the specification. *)
Definition scenario_user : list (jsstring * value) :=
  [(str "id", Str (str "u1"));
   (str "username", Str (str "jdoe"));
   (str "firstName", Str (str "Jane"));
   (str "surname", Str (str "Doe"));
   (str "displayName", Str (str "Jane Doe"));
   (str "created", Str (str "2020-01-01"));
   (str "lastUpdated", Str (str "2020-01-02"));
   (str "organisationUnits", Arr []);
   (str "userRoles", Arr []);
   (str "userGroups", Arr []);
   (str "userCredentials", Obj [])].

(** A record with two organisation units, no roles and an empty list of
    groups. *)
Definition two_units_user : list (jsstring * value) :=
  [(str "id", Str (str "u2"));
   (str "organisationUnits",
    Arr [Obj [(str "name", Str (str "A"))]; Obj [(str "name", Str (str "B"))]]);
   (str "userGroups", Arr [])].

(** A record without an id. *)
Definition anonymous_user : list (jsstring * value) :=
  [(str "username", Str (str "jdoe"))].

(** The body of a response holding the given users. *)
Definition users_body (users : list value) : jsstring :=
  match SerializeJSONProperty (Obj [(str "users", Arr users)]) with
  | Some text => text
  | None => []
  end.

(* ------------------------------------------------------------------ *)
(** ** Further vocabulary *)

(** The page after the [catch] of the promise chain. *)
Definition failed (e : JsError) (pg : Page) : Page :=
  showStatus (message e) (str "error") (hideLoader pg).

(** What the name of an element contributes to the joined string: a string
    contributes itself, a missing or null name nothing. *)
Inductive name_piece : value -> jsstring -> Prop :=
| piece_string (n : jsstring) : name_piece (Str n) n
| piece_undefined : name_piece Undefined []
| piece_null : name_piece Null [].

(** A list relation and the pieces of its elements: the relation is falsy
    (absent, null, ...), or it is an array of elements other than null
    whose names are strings, missing or null. *)
Inductive relation_pieces : value -> list jsstring -> Prop :=
| falsy_relation (rel : value) :
    ToBoolean rel = false -> relation_pieces rel []
| array_relation (elems : list value) (pieces : list jsstring) :
    Forall2 (fun o p => exists v, Get o (str "name") = Normal v /\ name_piece v p)
            elems pieces ->
    relation_pieces (Arr elems) pieces.

(** The first string unless it is empty, else the second: [a || b] on
    strings. *)
Definition pick (a b : jsstring) : jsstring :=
  match a with
  | [] => b
  | _ :: _ => a
  end.

(** The keys of a raw user record the mapping reads. *)
Definition source_keys : list jsstring :=
  scalar_keys ++ [str "organisationUnits"; str "userRoles"; str "userGroups";
                  str "userCredentials"].

(** Whether the selector entry [f] asks for the field [k]: it is [k], or
    [k] followed by a bracketed sub-selection. *)
Definition selects (k f : jsstring) : bool :=
  match strip_prefix k f with
  | Some [] => true
  | Some (c :: _) => c =? 91
  | None => false
  end.

(** A record whose id is an object with a toString property. *)
Definition opaque_id_user : list (jsstring * value) :=
  [(str "id", Obj [(str "toString", Bool true)]);
   (str "username", Str (str "jdoe"))].

(** A record with a gender, a null email, the disabled flag set and null
    credentials. *)
Definition mixed_user : list (jsstring * value) :=
  [(str "id", Str (str "u3"));
   (str "gender", Str (str "F"));
   (str "email", Null);
   (str "disabled", Bool true);
   (str "userCredentials", Null)].

(** A record whose second organisation unit has no name, with null roles. *)
Definition gaps_user : list (jsstring * value) :=
  [(str "id", Str (str "u4"));
   (str "organisationUnits",
    Arr [Obj [(str "name", Str (str "A"))]; Obj [(str "id", Str (str "x"))];
         Obj [(str "name", Str (str "B"))]]);
   (str "userRoles", Null)].

(** A record whose username holds markup. *)
Definition markup_user : list (jsstring * value) :=
  [(str "id", Str (str "u5"));
   (str "username", Str (str "<img src=x onerror=alert(1)>"))].

(** A page whose inputs hold the demo connection. *)
Definition demo_page : Page :=
  mkPage (mkInputs (str "https://play.dhis2.org/demo") (str "admin") (str "district"))
         [] (mkLoader (str "none") (str "none") 0 false false)
         [] (str "none") (mkStatus [] [] (str "none")) [].

End Connector.

Arguments str : simpl never.

(** Arithmetic goals may mention division and remainder by a constant. *)
Ltac Zify.zify_post_hook ::= Z.to_euclidean_division_equations.

(** Case analysis on every comparison of the goal. *)
Ltac split_tests :=
  repeat match goal with
         | |- context [?a <=? ?b] => destruct (N.leb_spec a b); cbn [andb orb negb]
         | |- context [?a <? ?b] => destruct (N.ltb_spec a b); cbn [andb orb negb]
         | |- context [?a =? ?b] => destruct (N.eqb_spec a b); cbn [andb orb negb]
         end.

(* ================================================================== *)
(** * Properties *)

Section Properties.

Context {E : Engine}.
Variable fetch : Request -> FetchResult.

(** ** Strings and completions *)

Lemma jsstring_eqb_eq (a b : jsstring) : jsstring_eqb a b = true <-> a = b.
Proof.
  revert b; induction a as [|x a IH]; intros [|y b]; simpl; split;
    try congruence; try reflexivity.
  - intros H. apply andb_true_iff in H as [Hx Hab].
    apply N.eqb_eq in Hx. apply IH in Hab. congruence.
  - intros H. injection H as -> ->.
    rewrite N.eqb_refl. simpl. now apply IH.
Qed.

(** ** Flattening one record *)

Lemma or_else_defined (a b : value) : b <> Undefined -> or_else a b <> Undefined.
Proof.
  intros Hb. unfold or_else.
  destruct (ToBoolean a) eqn:Ha; [|exact Hb].
  intros ->. discriminate.
Qed.

(** Joining strings: every element after the first is preceded by the
    separator. *)
Lemma join_from_strings (sep : jsstring) (names : list jsstring) :
  join_from false sep (map Str names)
  = Normal (concat_all (map (fun n => sep ++ n) names)).
Proof.
  induction names as [|n names IH]; simpl; [reflexivity|].
  rewrite IH. simpl. now rewrite <- app_assoc.
Qed.

Lemma joined_cons (sep n : jsstring) (names : list jsstring) :
  joined sep (n :: names) = n ++ concat_all (map (fun m => sep ++ m) names).
Proof.
  revert n; induction names as [|m names IH]; intros n.
  - simpl. now rewrite app_nil_r.
  - change (joined sep (n :: m :: names)) with (n ++ sep ++ joined sep (m :: names)).
    rewrite IH. simpl. now rewrite <- app_assoc.
Qed.

Lemma Array_join_strings (sep : jsstring) (names : list jsstring) :
  Array_join sep (map Str names) = Normal (joined sep names).
Proof.
  destruct names as [|n names]; [reflexivity|].
  rewrite joined_cons.
  unfold Array_join. simpl join_from.
  rewrite join_from_strings. reflexivity.
Qed.

Lemma mapM_names (elems : list value) (names : list jsstring) :
  Forall2 (fun o n => Get o (str "name") = Normal (Str n)) elems names ->
  mapM (fun o => Get o (str "name")) elems = Normal (map Str names).
Proof.
  induction 1 as [|o n elems names Ho _ IH]; simpl; [reflexivity|].
  rewrite Ho, IH. reflexivity.
Qed.

(** A relation with the given names flattens to the names joined by a
    semicolon and a space. *)
Lemma joined_names_relation (rel : value) (names : list jsstring) :
  relation_names rel names ->
  joined_names rel = Normal (Str (joined (str "; ") names)).
Proof.
  intros [|elems names' H]; [reflexivity|].
  unfold joined_names. change (or_else (Arr elems) (Arr [])) with (Arr elems).
  unfold Array_map. rewrite (mapM_names _ _ H). simpl bind.
  rewrite Array_join_strings. reflexivity.
Qed.

(** The row of an object whose three relations flatten. *)
Lemma FlatUserRow_Obj (props : list (jsstring * value)) (o r g : value) :
  joined_names (own (str "organisationUnits") props) = Normal o ->
  joined_names (own (str "userRoles") props) = Normal r ->
  joined_names (own (str "userGroups") props) = Normal g ->
  exists lastLogin,
    GetOptional (own (str "userCredentials") props) (str "lastLogin")
    = Normal lastLogin /\
    FlatUserRow (Obj props) = Normal (Obj [
      (str "id", own (str "id") props);
      (str "username", own (str "username") props);
      (str "firstName", own (str "firstName") props);
      (str "surname", own (str "surname") props);
      (str "displayName", own (str "displayName") props);
      (str "created", own (str "created") props);
      (str "lastUpdated", own (str "lastUpdated") props);
      (str "gender", or_else (own (str "gender") props) (Str []));
      (str "email", or_else (own (str "email") props) (Str []));
      (str "phone", or_else (own (str "phoneNumber") props) (Str []));
      (str "jobTitle", or_else (own (str "jobTitle") props) (Str []));
      (str "disabled", or_else (own (str "disabled") props) (Bool false));
      (str "orgUnits", o);
      (str "roles", r);
      (str "groups", g);
      (str "lastLogin", or_else lastLogin (Str []))
    ]).
Proof.
  intros Ho Hr Hg.
  assert (HL : exists lastLogin,
             GetOptional (own (str "userCredentials") props) (str "lastLogin")
             = Normal lastLogin).
  { destruct (own (str "userCredentials") props); simpl; eauto. }
  destruct HL as [lastLogin HL]. exists lastLogin. split; [exact HL|].
  unfold FlatUserRow. cbn [Get bind].
  rewrite Ho, Hr, Hg. cbn [bind]. rewrite HL. reflexivity.
Qed.

Lemma own_here (k : jsstring) (v : value) (rest : list (jsstring * value)) :
  own k ((k, v) :: rest) = v.
Proof.
  unfold own. simpl.
  now rewrite (proj2 (jsstring_eqb_eq k k) eq_refl).
Qed.

Lemma own_next (k k' : jsstring) (v : value) (rest : list (jsstring * value)) :
  jsstring_eqb k k' = false -> own k ((k', v) :: rest) = own k rest.
Proof.
  intros H. unfold own. simpl. now rewrite H.
Qed.

Lemma own_missing (k : jsstring) (props : list (jsstring * value)) :
  lookup k props = None -> own k props = Undefined.
Proof.
  intros H. unfold own. now rewrite H.
Qed.

(** Reads a literal key in a literal property list. *)
Ltac read_own := repeat rewrite own_next by reflexivity; rewrite own_here.

(** C1 (amended): for a raw user record (an object whose list relations
    are absent or arrays of named elements), the mapping produces a row
    with exactly the 16 keys; the nine fields with a default or a join
    (gender, email, phone, jobTitle, disabled, orgUnits, roles, groups,
    lastLogin) are never undefined, and the seven others (id, username,
    firstName, surname, displayName, created, lastUpdated) hold whatever
    the source holds under the same key. *)
Theorem FlatUserRow_fields (props : list (jsstring * value))
    (ou ur ug : list jsstring) :
  relation_names (own (str "organisationUnits") props) ou ->
  relation_names (own (str "userRoles") props) ur ->
  relation_names (own (str "userGroups") props) ug ->
  exists row,
    FlatUserRow (Obj props) = Normal (Obj row) /\
    map fst row = row_keys /\
    Forall (fun k => own k row <> Undefined) defaulted_keys /\
    Forall (fun k => own k row = own k props) copied_keys.
Proof.
  intros Hou Hur Hug.
  destruct (FlatUserRow_Obj props _ _ _
              (joined_names_relation _ _ Hou)
              (joined_names_relation _ _ Hur)
              (joined_names_relation _ _ Hug)) as [lastLogin [_ Hrow]].
  eexists. split; [exact Hrow|]. split; [reflexivity|]. split.
  - unfold defaulted_keys.
    repeat (apply Forall_cons; [read_own|]); try apply Forall_nil;
      try (apply or_else_defined); discriminate.
  - unfold copied_keys.
    repeat (apply Forall_cons; [read_own; reflexivity|]). apply Forall_nil.
Qed.

(** C5: for a raw user record, each optional field that is missing takes
    its default in the row: gender, email, phone (from phoneNumber) and
    jobTitle the empty string, disabled false, and lastLogin the empty
    string, whether userCredentials is missing or lacks lastLogin. *)
Theorem optional_defaults (props : list (jsstring * value))
    (ou ur ug : list jsstring) :
  relation_names (own (str "organisationUnits") props) ou ->
  relation_names (own (str "userRoles") props) ur ->
  relation_names (own (str "userGroups") props) ug ->
  exists row,
    FlatUserRow (Obj props) = Normal (Obj row) /\
    (lookup (str "gender") props = None -> own (str "gender") row = Str []) /\
    (lookup (str "email") props = None -> own (str "email") row = Str []) /\
    (lookup (str "phoneNumber") props = None -> own (str "phone") row = Str []) /\
    (lookup (str "jobTitle") props = None -> own (str "jobTitle") row = Str []) /\
    (lookup (str "disabled") props = None ->
     own (str "disabled") row = Bool false) /\
    (lookup (str "userCredentials") props = None ->
     own (str "lastLogin") row = Str []) /\
    (forall c, lookup (str "userCredentials") props = Some (Obj c) ->
               lookup (str "lastLogin") c = None ->
               own (str "lastLogin") row = Str []).
Proof.
  intros Hou Hur Hug.
  destruct (FlatUserRow_Obj props _ _ _
              (joined_names_relation _ _ Hou)
              (joined_names_relation _ _ Hur)
              (joined_names_relation _ _ Hug)) as [lastLogin [HL Hrow]].
  eexists. split; [exact Hrow|].
  repeat split; try (intros H; read_own; now rewrite (own_missing _ _ H)).
  - intros H. read_own. rewrite (own_missing _ _ H) in HL.
    injection HL as <-. reflexivity.
  - intros c Hc Hl. read_own. unfold own at 1 in HL. rewrite Hc in HL.
    simpl in HL. rewrite (own_missing _ _ Hl) in HL.
    injection HL as <-. reflexivity.
Qed.

(** C6: for a raw user record, organisationUnits, userRoles and userGroups
    are flattened into orgUnits, roles and groups by joining the names of
    their elements, in source order, with a semicolon and a space; an
    absent relation and an empty one give the empty string. *)
Theorem relations_joined (props : list (jsstring * value))
    (ou ur ug : list jsstring) :
  relation_names (own (str "organisationUnits") props) ou ->
  relation_names (own (str "userRoles") props) ur ->
  relation_names (own (str "userGroups") props) ug ->
  exists row,
    FlatUserRow (Obj props) = Normal (Obj row) /\
    own (str "orgUnits") row = Str (joined (str "; ") ou) /\
    own (str "roles") row = Str (joined (str "; ") ur) /\
    own (str "groups") row = Str (joined (str "; ") ug).
Proof.
  intros Hou Hur Hug.
  destruct (FlatUserRow_Obj props _ _ _
              (joined_names_relation _ _ Hou)
              (joined_names_relation _ _ Hur)
              (joined_names_relation _ _ Hug)) as [lastLogin [_ Hrow]].
  eexists. split; [exact Hrow|].
  repeat split; read_own; reflexivity.
Qed.

(** ** The request *)

Lemma ToBoolean_Str (s : jsstring) : s <> [] -> ToBoolean (Str s) = true.
Proof. destruct s; [congruence | reflexivity]. Qed.

Lemma or_else_Str (s : jsstring) (b : value) : s <> [] -> or_else (Str s) b = Str s.
Proof. intros H. unfold or_else. now rewrite ToBoolean_Str. Qed.

(** The connection parameters of a configuration with three non-empty
    strings are its own, whatever the inputs hold. *)
Lemma connection_ConnectionConfig (b u p : jsstring) (pg : Page) :
  b <> [] -> u <> [] -> p <> [] ->
  connection (ConnectionConfig b u p) pg = Normal (b ++ users_query, Str u, Str p).
Proof.
  intros Hb Hu Hp. unfold connection, ConnectionConfig. cbn [Get bind].
  read_own. read_own. read_own.
  rewrite !or_else_Str by assumption. reflexivity.
Qed.

Lemma basic_auth_latin1 (u p : jsstring) :
  latin1 (u ++ str ":" ++ p) = true ->
  basic_auth (Str u) (Str p)
  = Normal (str "Basic " ++ b64_encode (u ++ str ":" ++ p)).
Proof.
  intros H. unfold basic_auth, btoa. cbn [ToString bind].
  unfold latin1 in H. rewrite H. reflexivity.
Qed.

(** Once the parameters and the header are computed, the script shows the
    loader, sends the one request and runs the promise chain on the
    answer. *)
Lemma fetchDataForWDC_sends (config : value) (pg : Page)
    (url : jsstring) (user pass : value) (auth : jsstring) :
  connection (default_config config) pg = Normal (url, user, pass) ->
  basic_auth user pass = Normal auth ->
  fetchDataForWDC fetch config pg
  = (Normal (fst (fetch_chain (fetch (mkRequest url auth))
                              (send (mkRequest url auth) (showLoader pg)))),
     snd (fetch_chain (fetch (mkRequest url auth))
                      (send (mkRequest url auth) (showLoader pg)))).
Proof.
  intros Hc Ha. unfold fetchDataForWDC. rewrite Hc, Ha.
  now destruct (fetch_chain _ _).
Qed.

(** ** The promise chain *)

Lemma fetch_chain_rejected (r : FetchResult) (pg : Page) (err : JsError) :
  on_response r = Rejected err ->
  fetch_chain r pg
  = (Rejected err, showStatus (message err) (str "error") (hideLoader pg)).
Proof.
  intros H. unfold fetch_chain. now rewrite H.
Qed.

(** What the second [then] leaves when the mapping itself throws. *)
Lemma on_json_mapping_throws (json : value) (pg : Page) (e : JsError) :
  (users <- Get json (str "users") ;; Array_map users FlatUserRow) = Throw e ->
  on_json json pg = (Rejected e, pg).
Proof.
  intros H. unfold on_json. now rewrite H.
Qed.



(** The outcome of the second [then], case by case. *)
Lemma on_json_cases (json : value) (pg : Page) :
  (exists e pg', on_json json pg = (Rejected e, pg')) \/
  (exists users rows pg',
      Get json (str "users") = Normal users /\
      Array_map users FlatUserRow = Normal rows /\
      on_json json pg = (Fulfilled rows, pg') /\
      fetchedData pg' = rows).
Proof.
  unfold on_json.
  destruct (Get json (str "users")) as [users|e] eqn:HG; cbn [bind];
    [|left; eauto].
  destruct (Array_map users FlatUserRow) as [rows|e] eqn:HM; [|left; eauto].
  cbv zeta. change (fetchedData (set_fetchedData rows pg)) with rows.
  unfold updateDataTable.
  destruct (mapM row_html rows) as [htmls|e]; cbn [bind]; [|left; eauto].
  right. exists users, rows. eexists.
  split; [reflexivity|]. split; [exact HM|]. split; reflexivity.
Qed.

Lemma mapM_Forall2 {A B : Type} (f : A -> completion B) (l : list A) (bs : list B) :
  mapM f l = Normal bs -> Forall2 (fun a b => f a = Normal b) l bs.
Proof.
  revert bs; induction l as [|a l IH]; simpl; intros bs H.
  - injection H as <-. constructor.
  - destruct (f a) as [b|] eqn:Hfa; simpl in H; [|discriminate].
    destruct (mapM f l) as [bs'|]; simpl in H; [|discriminate].
    injection H as <-. constructor; auto.
Qed.

Lemma mapM_total {A B : Type} (f : A -> completion B) (l : list A) :
  Forall (fun a => exists b, f a = Normal b) l ->
  exists bs, mapM f l = Normal bs.
Proof.
  induction 1 as [|a l [b Hb] _ [bs IH]]; simpl; [eauto|].
  rewrite Hb, IH. simpl. eauto.
Qed.

(** ** Rendering the preview *)

Lemma scalar_ToString (v : value) : scalar v -> exists s, ToString v = Normal s.
Proof.
  destruct v as [| |[|]| | | |]; simpl; intros H; try contradiction; eauto.
Qed.

Lemma scalar_or_else (a b : value) : scalar a -> scalar b -> scalar (or_else a b).
Proof.
  intros Ha Hb. unfold or_else. now destruct (ToBoolean a).
Qed.

Lemma scalar_own (k : jsstring) (props : list (jsstring * value)) :
  Forall (fun kv => scalar (snd kv)) props -> scalar (own k props).
Proof.
  unfold own. induction 1 as [|[k' v] props Hv _ IH]; simpl; [exact I|].
  destruct (jsstring_eqb k k'); [exact Hv | exact IH].
Qed.

(** A row whose values are all scalars prints. *)
Lemma row_html_scalars (row : list (jsstring * value)) :
  Forall (fun kv => scalar (snd kv)) row ->
  exists html, row_html (Obj row) = Normal html.
Proof.
  intros H. unfold row_html.
  destruct (mapM_total (fun k => v <- Get (Obj row) k ;; ToString v) printed_keys)
    as [cells Hcells].
  - apply Forall_forall. intros k _. cbn [Get bind].
    apply scalar_ToString, scalar_own, H.
  - rewrite Hcells. cbn [bind]. eauto.
Qed.

(** The row of a raw user record exists and holds scalars only. *)
Lemma FlatUserRow_scalars (u : value) :
  RawUserRecord u ->
  exists row,
    FlatUserRow u = Normal (Obj row) /\ Forall (fun kv => scalar (snd kv)) row.
Proof.
  intros [props ou ur ug Hs Hou Hur Hug Hc].
  destruct (FlatUserRow_Obj props _ _ _
              (joined_names_relation _ _ Hou)
              (joined_names_relation _ _ Hur)
              (joined_names_relation _ _ Hug)) as [lastLogin [HL Hrow]].
  assert (Hll : scalar lastLogin).
  { destruct Hc as [|c Hc]; simpl in HL; injection HL as <-; [exact I | exact Hc]. }
  eexists. split; [exact Hrow|].
  unfold scalar_keys in Hs.
  repeat match goal with
         | H : Forall _ (_ :: _) |- _ => inversion H; subst; clear H
         end.
  repeat (apply Forall_cons;
          [cbn [snd]; try apply scalar_or_else; try assumption; exact I|]).
  apply Forall_nil.
Qed.

(** The second [then] on a body whose users are raw user records. *)
Lemma on_json_fulfils (json : value) (users : list value) (pg : Page) :
  Get json (str "users") = Normal (Arr users) ->
  Forall RawUserRecord users ->
  exists rows pg',
    on_json json pg = (Fulfilled rows, pg') /\
    Forall2 (fun u row => FlatUserRow u = Normal row) users rows /\
    fetchedData pg' = rows.
Proof.
  intros HG HR.
  assert (Hrows : exists rows,
             mapM FlatUserRow users = Normal rows /\
             Forall (fun r => exists html, row_html r = Normal html) rows).
  { clear HG. induction HR as [|u users Hu _ [rows [Hm Hh]]]; cbn [mapM].
    - exists []. split; [reflexivity | constructor].
    - destruct (FlatUserRow_scalars u Hu) as [row [Hrow Hsc]].
      rewrite Hrow, Hm. cbn [bind]. eexists. split; [reflexivity|].
      constructor; [now apply row_html_scalars | exact Hh]. }
  destruct Hrows as [rows [Hm Hh]].
  destruct (mapM_total row_html rows Hh) as [htmls Hhtmls].
  exists rows. eexists. split; [|split].
  - unfold on_json. rewrite HG. cbn [bind Array_map]. rewrite Hm.
    cbv zeta. change (fetchedData (set_fetchedData rows pg)) with rows.
    unfold updateDataTable. rewrite Hhtmls. cbn [bind]. reflexivity.
  - now apply mapM_Forall2.
  - reflexivity.
Qed.

(** ** The claims about the fetch *)

(** C4: an HTTP response with a non-success status makes fetchDataForWDC
    reject with the HttpError of its status code and status text, that is
    [Error("HTTP <status>: <statusText>")], whatever the body of the
    response (neither the error nor the page afterwards mentions it), and no
    row is stored; getData then calls abortWithError with that message and
    returns normally; for status 401 the message contains the text 401. *)
Theorem http_error_rejects (config : value) (pg : Page)
    (url : jsstring) (user pass : value) (auth : jsstring) (r : Response) :
  connection (default_config config) pg = Normal (url, user, pass) ->
  basic_auth user pass = Normal auth ->
  fetch (mkRequest url auth) = Responds r ->
  ok r = false ->
  let err := HttpError (status r) (statusText r) in
  let pg' := showStatus (message err) (str "error")
               (hideLoader (send (mkRequest url auth) (showLoader pg))) in
  fetchDataForWDC fetch config pg = (Normal (Rejected err), pg') /\
  fetchedData pg' = fetchedData pg /\
  (forall tableau,
      JSON_parse (connectionData tableau) = Normal config ->
      getData fetch tableau pg
      = mkRun (Normal tt) [abortWithError (message err)] pg') /\
  (status r = 401 ->
   message err = str "HTTP " ++ str "401" ++ str ": " ++ statusText r).
Proof.
  intros Hc Ha Hf Hok err pg'.
  assert (HR : on_response (fetch (mkRequest url auth)) = Rejected err).
  { rewrite Hf. unfold on_response. rewrite Hok. reflexivity. }
  assert (HF : fetchDataForWDC fetch config pg = (Normal (Rejected err), pg')).
  { rewrite (fetchDataForWDC_sends _ _ _ _ _ _ Hc Ha).
    rewrite (fetch_chain_rejected _ _ _ HR). reflexivity. }
  split; [exact HF|]. split; [reflexivity|]. split.
  - intros tableau Hp. unfold getData. rewrite Hp, HF. reflexivity.
  - intros H401. unfold err. cbn [message]. rewrite H401. reflexivity.
Qed.


(** C10: when the response has a success status and its body parses to a
    value with a users array, a fulfilled fetchDataForWDC returns the rows
    of the array's elements, one per element and in the same order; and it
    is fulfilled whenever every element is a raw user record. *)
Theorem rows_follow_users (config : value) (pg : Page)
    (url : jsstring) (user pass : value) (auth : jsstring) (r : Response)
    (json : value) (users : list value) :
  connection (default_config config) pg = Normal (url, user, pass) ->
  basic_auth user pass = Normal auth ->
  fetch (mkRequest url auth) = Responds r ->
  ok r = true ->
  JSON_parse_text (body r) = Normal json ->
  Get json (str "users") = Normal (Arr users) ->
  (forall rows pg',
      fetchDataForWDC fetch config pg = (Normal (Fulfilled rows), pg') ->
      Forall2 (fun u row => FlatUserRow u = Normal row) users rows /\
      List.length rows = List.length users) /\
  (Forall RawUserRecord users ->
   exists rows pg',
     fetchDataForWDC fetch config pg = (Normal (Fulfilled rows), pg') /\
     Forall2 (fun u row => FlatUserRow u = Normal row) users rows /\
     List.length rows = List.length users).
Proof.
  intros Hc Ha Hf Hok Hj HG.
  assert (HF : fetchDataForWDC fetch config pg
               = match on_json json (send (mkRequest url auth) (showLoader pg)) with
                 | (Rejected err, pg1) =>
                     (Normal (Rejected err),
                      showStatus (message err) (str "error") (hideLoader pg1))
                 | (Fulfilled rows, pg1) => (Normal (Fulfilled rows), pg1)
                 end).
  { rewrite (fetchDataForWDC_sends _ _ _ _ _ _ Hc Ha).
    unfold fetch_chain. rewrite Hf. unfold on_response.
    rewrite Hok, Hj. cbn [negb settle].
    destruct (on_json _ _) as [[rows|err] pg1]; reflexivity. }
  split.
  - intros rows pg' Hrows. rewrite HF in Hrows.
    destruct (on_json_cases json (send (mkRequest url auth) (showLoader pg)))
      as [[e [pg1 H1]] | [us [rows1 [pg1 [HG1 [HM [H1 _]]]]]]];
      rewrite H1 in Hrows; [discriminate|].
    injection Hrows as <- <-.
    rewrite HG in HG1. injection HG1 as <-.
    apply mapM_Forall2 in HM. split; [exact HM|].
    symmetry. exact (Forall2_length HM).
  - intros HR.
    destruct (on_json_fulfils json users
                (send (mkRequest url auth) (showLoader pg)) HG HR)
      as [rows [pg1 [H1 [H2 _]]]].
    exists rows, pg1. rewrite HF, H1.
    split; [reflexivity|]. split; [exact H2|].
    symmetry. exact (Forall2_length H2).
Qed.

(** ** JSON: strings survive quoting and reading back *)

Lemma hex_value_digit (d : N) : d < 16 -> hex_value (hex_digit d) = Some d.
Proof.
  intros H. unfold hex_value, hex_digit, is_digit.
  destruct (N.ltb_spec d 10); split_tests; try lia; f_equal; lia.
Qed.

Lemma hex4_value_digits (c : N) :
  c < 65536 ->
  hex4_value (hex_digit (c / 4096 mod 16)) (hex_digit (c / 256 mod 16))
             (hex_digit (c / 16 mod 16)) (hex_digit (c mod 16))
  = Some c.
Proof.
  intros H. unfold hex4_value.
  rewrite !hex_value_digit by lia. f_equal. lia.
Qed.

(** A code unit that needs no escape is read as itself. *)
Lemma lex_string_plain (c : N) (tail : jsstring) :
  c <> 34 -> c <> 92 -> 32 <= c ->
  lex_string (c :: tail)
  = match lex_string tail with
    | Some (t, rest) => Some (c :: t, rest)
    | None => None
    end.
Proof.
  intros H1 H2 H3. cbn [lex_string].
  destruct (N.eqb_spec c 34); [contradiction|].
  destruct (N.eqb_spec c 92); [contradiction|].
  destruct (N.ltb_spec c 32); [lia|]. reflexivity.
Qed.

Lemma lex_string_UnicodeEscape (c : N) (tail : jsstring) :
  c < 65536 ->
  lex_string (UnicodeEscape c ++ tail)
  = match lex_string tail with
    | Some (t, rest) => Some (c :: t, rest)
    | None => None
    end.
Proof.
  intros H. unfold UnicodeEscape. cbn [app lex_string N.eqb Pos.eqb].
  rewrite (hex4_value_digits c H). reflexivity.
Qed.

(** What [quote_unit] writes for a code unit is read back as that unit. *)
Lemma lex_string_quote_unit (c : N) (tail : jsstring) :
  lex_string (quote_unit c ++ tail)
  = match lex_string tail with
    | Some (t, rest) => Some (c :: t, rest)
    | None => None
    end.
Proof.
  unfold quote_unit.
  repeat match goal with
         | |- context [if ?a =? ?b then _ else _] =>
             destruct (N.eqb_spec a b); [subst; reflexivity|]
         end.
  destruct ((c <? 32) || is_leading_surrogate c || is_trailing_surrogate c)
    eqn:Hesc.
  - apply lex_string_UnicodeEscape.
    unfold is_leading_surrogate, is_trailing_surrogate in Hesc.
    revert Hesc. split_tests; intros; try discriminate; lia.
  - apply orb_false_iff in Hesc as [Hesc _].
    apply orb_false_iff in Hesc as [Hesc _].
    apply N.ltb_ge in Hesc.
    now apply lex_string_plain.
Qed.

Lemma surrogate_plain (c : N) :
  is_leading_surrogate c || is_trailing_surrogate c = true ->
  c <> 34 /\ c <> 92 /\ 32 <= c.
Proof.
  unfold is_leading_surrogate, is_trailing_surrogate.
  split_tests; intros; try discriminate; lia.
Qed.

(** What [quote_units] writes for a string, up to the closing quote, is
    read back as that string. *)
Lemma lex_string_quote_units (s rest : jsstring) :
  lex_string (quote_units s ++ 34 :: rest) = Some (s, rest).
Proof.
  remember (List.length s) as n eqn:Hn.
  revert s Hn. induction n as [n IH] using lt_wf_ind. intros s Hn.
  destruct s as [|c [|d r]].
  - reflexivity.
  - cbn [quote_units]. rewrite lex_string_quote_unit. reflexivity.
  - change (quote_units (c :: d :: r))
      with (if is_leading_surrogate c && is_trailing_surrogate d
            then c :: d :: quote_units r
            else quote_unit c ++ quote_units (d :: r)).
    destruct (is_leading_surrogate c && is_trailing_surrogate d) eqn:Hpair.
    + apply andb_true_iff in Hpair as [Hc Hd].
      destruct (surrogate_plain c) as [c1 [c2 c3]]; [now rewrite Hc|].
      destruct (surrogate_plain d) as [d1 [d2 d3]];
        [now rewrite Hd, orb_true_r|].
      cbn [app]. rewrite (lex_string_plain c) by assumption.
      rewrite (lex_string_plain d) by assumption.
      rewrite (IH (List.length r)) by (subst n; simpl; lia || reflexivity).
      reflexivity.
    + rewrite <- app_assoc, lex_string_quote_unit.
      rewrite (IH (List.length (d :: r))) by (subst n; simpl; lia || reflexivity).
      reflexivity.
Qed.

(** A quoted string followed by more text: after the opening quote comes a
    body that reads back as the string and leaves that text. *)
Lemma QuoteJSONString_read (s rest : jsstring) :
  QuoteJSONString s ++ rest = 34 :: (quote_units s ++ 34 :: rest).
Proof.
  unfold QuoteJSONString. cbn [app]. now rewrite <- app_assoc.
Qed.

(** ** JSON: the saved configuration parses back *)

Lemma skip_ws_token (c : N) (r : jsstring) :
  is_ws c = false -> skip_ws (c :: r) = c :: r.
Proof. intros H. cbn [skip_ws]. now rewrite H. Qed.

Lemma parse_value_S (fuel : nat) (s : jsstring) :
  parse_value (S fuel) s
  = match skip_ws s with
    | [] => PSyntax
    | c :: r =>
        if c =? 123 then
          match skip_ws r with
          | d :: r' =>
              if d =? 125 then POk (Obj []) r'
              else parse_members fuel (d :: r') []
          | [] => PSyntax
          end
        else if c =? 91 then
          match skip_ws r with
          | d :: r' =>
              if d =? 93 then POk (Arr []) r'
              else parse_elements fuel (d :: r') []
          | [] => PSyntax
          end
        else if c =? 34 then
          match lex_string r with
          | Some (t, rest) => POk (Str t) rest
          | None => PSyntax
          end
        else parse_scalar (c :: r)
    end.
Proof. reflexivity. Qed.

Lemma parse_members_S (fuel : nat) (s : jsstring) (acc : list (jsstring * value)) :
  parse_members (S fuel) s acc
  = match skip_ws s with
    | q :: r =>
        if q =? 34 then
          match lex_string r with
          | Some (k, rest) =>
              match skip_ws rest with
              | c :: r1 =>
                  if c =? 58 then
                    match parse_value fuel r1 with
                    | POk v rest1 =>
                        match skip_ws rest1 with
                        | d :: r2 =>
                            if d =? 44 then parse_members fuel r2 (set_prop k v acc)
                            else if d =? 125 then POk (Obj (set_prop k v acc)) r2
                            else PSyntax
                        | [] => PSyntax
                        end
                    | other => other
                    end
                  else PSyntax
              | [] => PSyntax
              end
          | None => PSyntax
          end
        else PSyntax
    | [] => PSyntax
    end.
Proof. reflexivity. Qed.

(** A quoted string is parsed as a string value. *)
Lemma parse_value_string (fuel : nat) (v rest : jsstring) :
  parse_value (S fuel) (QuoteJSONString v ++ rest) = POk (Str v) rest.
Proof.
  rewrite QuoteJSONString_read, parse_value_S.
  rewrite skip_ws_token by reflexivity.
  change (34 =? 123) with false. change (34 =? 91) with false.
  change (34 =? 34) with true. cbv iota.
  now rewrite lex_string_quote_units.
Qed.

(** A member with a string value, followed by a comma. *)
Lemma parse_members_more (fuel : nat) (k v tail : jsstring)
    (acc : list (jsstring * value)) :
  parse_members (S (S fuel))
    (QuoteJSONString k ++ 58 :: QuoteJSONString v ++ 44 :: tail) acc
  = parse_members (S fuel) tail (set_prop k (Str v) acc).
Proof.
  rewrite QuoteJSONString_read, parse_members_S.
  rewrite skip_ws_token by reflexivity.
  change (34 =? 34) with true. cbv iota.
  rewrite lex_string_quote_units.
  rewrite skip_ws_token by reflexivity.
  change (58 =? 58) with true. cbv iota.
  rewrite parse_value_string.
  rewrite skip_ws_token by reflexivity.
  reflexivity.
Qed.

(** The last member, followed by the closing brace. *)
Lemma parse_members_last (fuel : nat) (k v rest : jsstring)
    (acc : list (jsstring * value)) :
  parse_members (S (S fuel))
    (QuoteJSONString k ++ 58 :: QuoteJSONString v ++ 125 :: rest) acc
  = POk (Obj (set_prop k (Str v) acc)) rest.
Proof.
  rewrite QuoteJSONString_read, parse_members_S.
  rewrite skip_ws_token by reflexivity.
  change (34 =? 34) with true. cbv iota.
  rewrite lex_string_quote_units.
  rewrite skip_ws_token by reflexivity.
  change (58 =? 58) with true. cbv iota.
  rewrite parse_value_string.
  rewrite skip_ws_token by reflexivity.
  reflexivity.
Qed.

(** The text JSON.stringify gives a configuration. *)
Lemma SerializeJSONProperty_ConnectionConfig (b u p : jsstring) :
  SerializeJSONProperty (ConnectionConfig b u p)
  = Some (123 :: QuoteJSONString (str "baseUrl") ++ 58 :: QuoteJSONString b
          ++ 44 :: QuoteJSONString (str "username") ++ 58 :: QuoteJSONString u
          ++ 44 :: QuoteJSONString (str "password") ++ 58 :: QuoteJSONString p
          ++ 125 :: []).
Proof.
  unfold ConnectionConfig. cbn [SerializeJSONProperty].
  f_equal. change (str "{") with [123]. change (str ":") with [58].
  change (str ",") with [44]. change (str "}") with [125].
  cbn [app]. f_equal.
  repeat (rewrite <- ?app_assoc; cbn [app]; try reflexivity; f_equal).
Qed.

(** An object of three members with string values is parsed member by
    member. *)
Lemma parse_value_three_strings (fuel : nat) (k1 v1 k2 v2 k3 v3 rest : jsstring) :
  parse_value (S (S (S (S (S fuel)))))
    (123 :: QuoteJSONString k1 ++ 58 :: QuoteJSONString v1
     ++ 44 :: QuoteJSONString k2 ++ 58 :: QuoteJSONString v2
     ++ 44 :: QuoteJSONString k3 ++ 58 :: QuoteJSONString v3
     ++ 125 :: rest)
  = POk (Obj (set_prop k3 (Str v3) (set_prop k2 (Str v2) (set_prop k1 (Str v1) []))))
        rest.
Proof.
  rewrite parse_value_S.
  rewrite skip_ws_token by reflexivity.
  change (123 =? 123) with true. cbv iota.
  rewrite (QuoteJSONString_read k1).
  rewrite skip_ws_token by reflexivity.
  change (34 =? 125) with false. cbv iota.
  rewrite <- (QuoteJSONString_read k1).
  rewrite parse_members_more, parse_members_more, parse_members_last.
  reflexivity.
Qed.

(** That text parses back to the configuration. *)
Lemma JSON_parse_text_ConnectionConfig (b u p text : jsstring) :
  SerializeJSONProperty (ConnectionConfig b u p) = Some text ->
  JSON_parse_text text = Normal (ConnectionConfig b u p).
Proof.
  rewrite SerializeJSONProperty_ConnectionConfig. intros H.
  apply (f_equal (fun o => match o with Some t => t | None => [] end)) in H.
  cbv beta iota in H. subst text. unfold JSON_parse_text.
  match goal with
  | |- context [parse_value ?f _] =>
      assert (Hf : (5 <= f)%nat)
        by (rewrite QuoteJSONString_read; cbn [List.length]; lia);
      remember f as fuel eqn:Hfuel; clear Hfuel
  end.
  destruct fuel as [|[|[|[|[|fuel]]]]]; try lia.
  rewrite parse_value_three_strings. reflexivity.
Qed.

(** C7: the connection data the submit handler saves (JSON.stringify of
    the three input values) is parsed by getData's JSON.parse into the
    configuration with the same three strings. *)
Theorem config_round_trip (tableau : Tableau) (pg : Page) :
  JSON_parse (connectionData (fst (submitButton_click tableau pg)))
  = Normal (ConnectionConfig (baseUrl_value (inputs pg))
                             (username_value (inputs pg))
                             (password_value (inputs pg))).
Proof.
  unfold submitButton_click. cbn [fst connectionData].
  unfold JSON_stringify.
  destruct (SerializeJSONProperty
              (Obj [(str "baseUrl", Str (baseUrl_value (inputs pg)));
                    (str "username", Str (username_value (inputs pg)));
                    (str "password", Str (password_value (inputs pg)))]))
    as [text|] eqn:Htext.
  - unfold JSON_parse. cbn [ToString bind].
    now apply JSON_parse_text_ConnectionConfig.
  - discriminate Htext.
Qed.

(** ** JSON.parse: the budget always suffices *)

Lemma parse_elements_S (fuel : nat) (s : jsstring) (acc : list value) :
  parse_elements (S fuel) s acc
  = match parse_value fuel s with
    | POk v rest =>
        match skip_ws rest with
        | d :: r =>
            if d =? 44 then parse_elements fuel r (v :: acc)
            else if d =? 93 then POk (Arr (rev (v :: acc))) r
            else PSyntax
        | [] => PSyntax
        end
    | other => other
    end.
Proof. reflexivity. Qed.

Lemma skip_ws_length (s : jsstring) :
  (List.length (skip_ws s) <= List.length s)%nat.
Proof.
  induction s as [|c s IH]; simpl; [lia|].
  destruct (is_ws c); simpl; lia.
Qed.

Lemma skip_ws_cons_length (s r : jsstring) (c : N) :
  skip_ws s = c :: r -> (List.length r < List.length s)%nat.
Proof.
  intros H. pose proof (skip_ws_length s) as L. rewrite H in L. simpl in L. lia.
Qed.

Lemma span_digits_length (s ds rest : jsstring) :
  span_digits s = (ds, rest) ->
  (List.length rest <= List.length s)%nat.
Proof.
  revert ds rest; induction s as [|c s IH]; simpl; intros ds rest H.
  - injection H as <- <-. simpl. lia.
  - destruct (is_digit c).
    + destruct (span_digits s) as [ds' rest'] eqn:Hs.
      injection H as <- <-. specialize (IH _ _ eq_refl). lia.
    + injection H as <- <-. simpl. lia.
Qed.

Lemma strip_prefix_length (p s rest : jsstring) :
  strip_prefix p s = Some rest ->
  (List.length rest + List.length p = List.length s)%nat.
Proof.
  revert s; induction p as [|x p IH]; intros [|y s]; simpl; intros H;
    try discriminate; try (injection H as <-; simpl; lia).
  destruct (x =? y); [|discriminate]. apply IH in H. lia.
Qed.

Lemma lex_string_shrinks (s t rest : jsstring) :
  lex_string s = Some (t, rest) -> (List.length rest < List.length s)%nat.
Proof.
  remember (List.length s) as n eqn:Hn.
  revert s t rest Hn. induction n as [n IH] using lt_wf_ind.
  intros s t rest Hn H. destruct s as [|c r]; [discriminate|].
  cbn [lex_string] in H. subst n. cbn [List.length].
  destruct (c =? 34).
  { injection H as <- <-. lia. }
  destruct (c =? 92).
  - destruct r as [|e r1]; [discriminate|].
    destruct (e =? 117).
    + destruct r1 as [|h1 [|h2 [|h3 [|h4 r2]]]]; try discriminate.
      destruct (hex4_value h1 h2 h3 h4); [|discriminate].
      destruct (lex_string r2) as [[t' rest']|] eqn:Hr; [|discriminate].
      injection H as <- <-.
      assert (Hr' := IH (List.length r2) ltac:(cbn [List.length]; lia)
                        _ _ _ eq_refl Hr).
      cbn [List.length]. lia.
    + destruct (simple_escape e); [|discriminate].
      destruct (lex_string r1) as [[t' rest']|] eqn:Hr; [|discriminate].
      injection H as <- <-.
      assert (Hr' := IH (List.length r1) ltac:(cbn [List.length]; lia)
                        _ _ _ eq_refl Hr).
      cbn [List.length]. lia.
  - destruct (c <? 32); [discriminate|].
    destruct (lex_string r) as [[t' rest']|] eqn:Hr; [|discriminate].
    injection H as <- <-.
    assert (Hr' := IH (List.length r) ltac:(cbn [List.length]; lia)
                      _ _ _ eq_refl Hr).
    cbn [List.length]. lia.
Qed.

Lemma lex_number_shrinks (s t rest : jsstring) :
  lex_number s = Some (t, rest) -> (List.length rest < List.length s)%nat.
Proof.
  unfold lex_number.
  set (sg := match s with
             | c :: r => if c =? 45 then ([c], r) else ([], s)
             | [] => ([], s)
             end).
  assert (Hsg : (List.length (snd sg) <= List.length s)%nat).
  { subst sg. destruct s as [|c r]; simpl; [lia|].
    destruct (c =? 45); simpl; lia. }
  destruct sg as [sign s1]. cbn [snd] in Hsg.
  destruct (lex_int s1) as [[i s2]|] eqn:Hi; [|discriminate].
  assert (H2 : (List.length s2 < List.length s1)%nat).
  { unfold lex_int in Hi. destruct s1 as [|c r]; [discriminate|].
    destruct (c =? 48).
    - injection Hi as <- <-. simpl. lia.
    - destruct (is_digit c); [|discriminate].
      destruct (span_digits r) as [ds rest'] eqn:Hs.
      injection Hi as <- <-. apply span_digits_length in Hs. simpl. lia. }
  destruct (lex_frac s2) as [[f s3]|] eqn:Hf; [|discriminate].
  assert (H3 : (List.length s3 <= List.length s2)%nat).
  { unfold lex_frac in Hf. destruct s2 as [|c r].
    - injection Hf as <- <-. lia.
    - destruct (c =? 46).
      + destruct (span_digits r) as [[|d ds] rest'] eqn:Hs; [discriminate|].
        injection Hf as <- <-. apply span_digits_length in Hs. simpl. lia.
      + injection Hf as <- <-. lia. }
  destruct (lex_exp s3) as [[e s4]|] eqn:He; [|discriminate].
  assert (H4 : (List.length s4 <= List.length s3)%nat).
  { unfold lex_exp in He. destruct s3 as [|c r].
    - injection He as <- <-. lia.
    - destruct ((c =? 101) || (c =? 69)).
      + set (sr := match r with
                   | d :: r' => if (d =? 43) || (d =? 45) then ([d], r') else ([], r)
                   | [] => ([], r)
                   end) in He.
        assert (Hsr : (List.length (snd sr) <= List.length r)%nat).
        { subst sr. destruct r as [|d r']; simpl; [lia|].
          destruct ((d =? 43) || (d =? 45)); simpl; lia. }
        destruct sr as [sg' r1]. cbn [snd] in Hsr.
        destruct (span_digits r1) as [[|d ds] rest'] eqn:Hs; [discriminate|].
        injection He as <- <-. apply span_digits_length in Hs. simpl. lia.
      + injection He as <- <-. lia. }
  intros H. injection H as <- <-. lia.
Qed.

Lemma parse_scalar_shrinks (s : jsstring) (v : value) (rest : jsstring) :
  parse_scalar s = POk v rest -> (List.length rest < List.length s)%nat.
Proof.
  unfold parse_scalar.
  destruct (strip_prefix (str "true") s) eqn:H1.
  { intros H. injection H as <- <-. apply strip_prefix_length in H1.
    change (List.length (str "true")) with 4%nat in H1. lia. }
  destruct (strip_prefix (str "false") s) eqn:H2.
  { intros H. injection H as <- <-. apply strip_prefix_length in H2.
    change (List.length (str "false")) with 5%nat in H2. lia. }
  destruct (strip_prefix (str "null") s) eqn:H3.
  { intros H. injection H as <- <-. apply strip_prefix_length in H3.
    change (List.length (str "null")) with 4%nat in H3. lia. }
  destruct (lex_number s) as [[t r]|] eqn:H4; [|discriminate].
  intros H. injection H as <- <-. now apply lex_number_shrinks in H4.
Qed.

Lemma parse_scalar_fuel (s : jsstring) : parse_scalar s <> PFuel.
Proof.
  unfold parse_scalar.
  repeat match goal with
         | |- context [match ?x with _ => _ end] => destruct x
         end; discriminate.
Qed.

(** Whatever is parsed consumes at least one code unit. *)
Lemma parse_shrinks (fuel : nat) :
  (forall s v rest,
      parse_value fuel s = POk v rest ->
      (List.length rest < List.length s)%nat) /\
  (forall s acc v rest,
      parse_elements fuel s acc = POk v rest ->
      (List.length rest < List.length s)%nat) /\
  (forall s acc v rest,
      parse_members fuel s acc = POk v rest ->
      (List.length rest < List.length s)%nat).
Proof.
  induction fuel as [|fuel [IHv [IHe IHm]]].
  { repeat split; intros; discriminate. }
  split; [|split].
  - intros s v rest. rewrite parse_value_S.
    destruct (skip_ws s) as [|c r] eqn:Hs; [discriminate|].
    apply skip_ws_cons_length in Hs.
    destruct (c =? 123).
    { destruct (skip_ws r) as [|d r'] eqn:Hr; [discriminate|].
      pose proof (skip_ws_length r) as Lr. rewrite Hr in Lr.
      cbn [List.length] in Lr.
      destruct (d =? 125).
      - intros H. injection H as <- <-. lia.
      - intros H. apply IHm in H. cbn [List.length] in H. lia. }
    destruct (c =? 91).
    { destruct (skip_ws r) as [|d r'] eqn:Hr; [discriminate|].
      pose proof (skip_ws_length r) as Lr. rewrite Hr in Lr.
      cbn [List.length] in Lr.
      destruct (d =? 93).
      - intros H. injection H as <- <-. lia.
      - intros H. apply IHe in H. cbn [List.length] in H. lia. }
    destruct (c =? 34).
    { destruct (lex_string r) as [[t rest']|] eqn:Hl; [|discriminate].
      intros H. injection H as <- <-. apply lex_string_shrinks in Hl. lia. }
    intros H. apply parse_scalar_shrinks in H. cbn [List.length] in H. lia.
  - intros s acc v rest. rewrite parse_elements_S.
    destruct (parse_value fuel s) as [v1 rest1| |] eqn:Hv; try discriminate.
    apply IHv in Hv.
    destruct (skip_ws rest1) as [|d r] eqn:Hr; [discriminate|].
    apply skip_ws_cons_length in Hr.
    destruct (d =? 44).
    { intros H. apply IHe in H. lia. }
    destruct (d =? 93); [|discriminate].
    intros H. injection H as <- <-. lia.
  - intros s acc v rest. rewrite parse_members_S.
    destruct (skip_ws s) as [|q r] eqn:Hs; [discriminate|].
    apply skip_ws_cons_length in Hs.
    destruct (q =? 34); [|discriminate].
    destruct (lex_string r) as [[k rest0]|] eqn:Hl; [|discriminate].
    apply lex_string_shrinks in Hl.
    destruct (skip_ws rest0) as [|c r1] eqn:Hr0; [discriminate|].
    apply skip_ws_cons_length in Hr0.
    destruct (c =? 58); [|discriminate].
    destruct (parse_value fuel r1) as [v1 rest1| |] eqn:Hv; try discriminate.
    apply IHv in Hv.
    destruct (skip_ws rest1) as [|d r2] eqn:Hr1; [discriminate|].
    apply skip_ws_cons_length in Hr1.
    destruct (d =? 44).
    { intros H. apply IHm in H. lia. }
    destruct (d =? 125); [|discriminate].
    intros H. injection H as <- <-. lia.
Qed.

(** Two units of budget per code unit are enough at every level. *)
Lemma parse_fuel (fuel : nat) :
  (forall s, (2 * List.length s + 1 <= fuel)%nat -> parse_value fuel s <> PFuel) /\
  (forall s acc, (2 * List.length s + 2 <= fuel)%nat ->
                 parse_elements fuel s acc <> PFuel) /\
  (forall s acc, (2 * List.length s + 2 <= fuel)%nat ->
                 parse_members fuel s acc <> PFuel).
Proof.
  induction fuel as [|fuel [IHv [IHe IHm]]].
  { repeat split; intros; lia. }
  split; [|split].
  - intros s Hs. rewrite parse_value_S.
    destruct (skip_ws s) as [|c r] eqn:Hw; [discriminate|].
    apply skip_ws_cons_length in Hw.
    destruct (c =? 123).
    { destruct (skip_ws r) as [|d r'] eqn:Hr; [discriminate|].
      pose proof (skip_ws_length r) as Lr. rewrite Hr in Lr.
      cbn [List.length] in Lr.
      destruct (d =? 125); [discriminate|].
      apply IHm. cbn [List.length]. lia. }
    destruct (c =? 91).
    { destruct (skip_ws r) as [|d r'] eqn:Hr; [discriminate|].
      pose proof (skip_ws_length r) as Lr. rewrite Hr in Lr.
      cbn [List.length] in Lr.
      destruct (d =? 93); [discriminate|].
      apply IHe. cbn [List.length]. lia. }
    destruct (c =? 34).
    { destruct (lex_string r) as [[t rest']|]; discriminate. }
    apply parse_scalar_fuel.
  - intros s acc Hs. rewrite parse_elements_S.
    destruct (parse_value fuel s) as [v1 rest1| |] eqn:Hv.
    + apply (proj1 (parse_shrinks fuel)) in Hv.
      destruct (skip_ws rest1) as [|d r] eqn:Hr; [discriminate|].
      apply skip_ws_cons_length in Hr.
      destruct (d =? 44).
      { apply IHe. lia. }
      destruct (d =? 93); discriminate.
    + discriminate.
    + exfalso. apply (IHv s); [lia | exact Hv].
  - intros s acc Hs. rewrite parse_members_S.
    destruct (skip_ws s) as [|q r] eqn:Hw; [discriminate|].
    apply skip_ws_cons_length in Hw.
    destruct (q =? 34); [|discriminate].
    destruct (lex_string r) as [[k rest0]|] eqn:Hl; [|discriminate].
    apply lex_string_shrinks in Hl.
    destruct (skip_ws rest0) as [|c r1] eqn:Hr0; [discriminate|].
    apply skip_ws_cons_length in Hr0.
    destruct (c =? 58); [|discriminate].
    destruct (parse_value fuel r1) as [v1 rest1| |] eqn:Hv.
    + apply (proj1 (parse_shrinks fuel)) in Hv.
      destruct (skip_ws rest1) as [|d r2] eqn:Hr1; [discriminate|].
      apply skip_ws_cons_length in Hr1.
      destruct (d =? 44).
      { apply IHm. lia. }
      destruct (d =? 125); discriminate.
    + discriminate.
    + exfalso. apply (IHv r1); [lia | exact Hv].
Qed.

(** JSON.parse never runs out of budget: its SyntaxError is always a
    verdict on the text. *)
Lemma parse_value_fuel (text : jsstring) :
  parse_value (2 * List.length text + 1) text <> PFuel.
Proof.
  apply (proj1 (parse_fuel _)). lia.
Qed.

(** ** The request URL *)

(** The promise chain sends nothing. *)
Lemma fetch_chain_requests (r : FetchResult) (pg : Page) :
  requests (snd (fetch_chain r pg)) = requests pg.
Proof.
  unfold fetch_chain.
  destruct (on_response r) as [json|err]; [|reflexivity].
  unfold on_json.
  destruct (users <- Get json (str "users") ;; Array_map users FlatUserRow)
    as [rows|e]; [|reflexivity].
  cbv zeta. unfold updateDataTable.
  destruct (mapM row_html _) as [htmls|e]; reflexivity.
Qed.

Lemma users_query_selector :
  users_query
  = str "/api/users.json" ++ str "?fields=" ++ joined (str ",") selector
    ++ str "&paging=false".
Proof. reflexivity. Qed.

Lemma selector_NoDup : NoDup selector.
Proof.
  unfold selector.
  repeat (apply NoDup_cons; [cbv; intuition discriminate|]).
  apply NoDup_nil.
Qed.

(** C8: for a configuration with three non-empty strings, the URL the
    script builds is the base followed by /api/users.json, ?fields= with
    the 15 fields of the selector separated by commas (the three list
    relations with their [id,name] sub-selection among them) and
    &paging=false; the configuration contributes the base only, and the one
    request sent carries that URL. *)
Theorem request_url (b u p : jsstring) (pg : Page) :
  b <> [] -> u <> [] -> p <> [] ->
  let url := b ++ str "/api/users.json" ++ str "?fields="
             ++ joined (str ",") selector ++ str "&paging=false" in
  List.length selector = 15%nat /\
  NoDup selector /\
  incl [str "organisationUnits[id,name]"; str "userRoles[id,name]";
        str "userGroups[id,name]"] selector /\
  connection (default_config (ConnectionConfig b u p)) pg
  = Normal (url, Str u, Str p) /\
  (latin1 (u ++ str ":" ++ p) = true ->
   requests (snd (fetchDataForWDC fetch (ConnectionConfig b u p) pg))
   = requests pg
     ++ [mkRequest url (str "Basic " ++ b64_encode (u ++ str ":" ++ p))]).
Proof.
  intros Hb Hu Hp url.
  assert (Hc : connection (default_config (ConnectionConfig b u p)) pg
               = Normal (url, Str u, Str p)).
  { change (default_config (ConnectionConfig b u p)) with (ConnectionConfig b u p).
    rewrite (connection_ConnectionConfig b u p pg Hb Hu Hp).
    unfold url. now rewrite users_query_selector. }
  split; [reflexivity|]. split; [exact selector_NoDup|]. split.
  - intros f [<-|[<-|[<-|[]]]]; cbv; tauto.
  - split; [exact Hc|]. intros Hl.
    rewrite (fetchDataForWDC_sends _ _ _ _ _ _ Hc (basic_auth_latin1 u p Hl)).
    cbn [snd]. rewrite fetch_chain_requests. reflexivity.
Qed.

(** ** The schema *)

(** C9: in every state of the page, getSchema returns normally, leaves the
    page as it is and calls schemaCallback once, with one table named
    DHIS2Users whose 16 columns are, in this order and with these types:
    id, username, firstName, surname, displayName (string), created,
    lastUpdated (datetime), gender, email, phone, jobTitle, orgUnits, roles,
    groups (string), lastLogin (datetime), disabled (boolean); so any two
    calls, in whatever states, pass the same table. *)
Theorem getSchema_table :
  exists cols,
    (forall pg,
        getSchema pg
        = mkRun (Normal tt)
                [schemaCallback [TableInfo.mk (str "DHIS2Users") cols]] pg) /\
    (forall pg1 pg2, calls (getSchema pg1) = calls (getSchema pg2)) /\
    List.length cols = 16%nat /\
    map ColumnInfo.id cols = printed_keys /\
    map ColumnInfo.dataType cols
    = [dataTypeEnum.string; dataTypeEnum.string; dataTypeEnum.string;
       dataTypeEnum.string; dataTypeEnum.string; dataTypeEnum.datetime;
       dataTypeEnum.datetime; dataTypeEnum.string; dataTypeEnum.string;
       dataTypeEnum.string; dataTypeEnum.string; dataTypeEnum.string;
       dataTypeEnum.string; dataTypeEnum.string; dataTypeEnum.datetime;
       dataTypeEnum.boolean].
Proof.
  eexists. split.
  - intros pg. unfold getSchema. reflexivity.
  - split; [intros pg1 pg2; reflexivity|].
    split; [reflexivity|]. split; reflexivity.
Qed.

(** ** getData *)

(** What getData does follows the promise: rows and completion when it is
    fulfilled, the abort with the error's message when it is rejected. *)
Lemma getData_fulfilled (tableau : Tableau) (pg pg' : Page) (cfg : value)
    (rows : list value) :
  JSON_parse (connectionData tableau) = Normal cfg ->
  fetchDataForWDC fetch cfg pg = (Normal (Fulfilled rows), pg') ->
  getData fetch tableau pg = mkRun (Normal tt) [appendRows rows; doneCallback] pg'.
Proof.
  intros Hp HF. unfold getData. now rewrite Hp, HF.
Qed.

Lemma getData_rejected (tableau : Tableau) (pg pg' : Page) (cfg : value)
    (err : JsError) :
  JSON_parse (connectionData tableau) = Normal cfg ->
  fetchDataForWDC fetch cfg pg = (Normal (Rejected err), pg') ->
  getData fetch tableau pg = mkRun (Normal tt) [abortWithError (message err)] pg'.
Proof.
  intros Hp HF. unfold getData. now rewrite Hp, HF.
Qed.

(** C2 (the case the script misses): with connection data that is not
    JSON, here the empty string, getData throws the SyntaxError of
    JSON.parse and calls no host operation, abortWithError included. *)
Theorem getData_throws_on_empty_connectionData (name : value) (pg : Page) :
  getData fetch (mkTableau (Str []) name) pg
  = mkRun (Throw (mkError SyntaxError (SyntaxError_message []))) [] pg.
Proof.
  unfold getData. cbn [connectionData].
  unfold JSON_parse. cbn [ToString bind].
  reflexivity.
Qed.

(** X18: a username or password outside Latin-1 takes the same way out:
    btoa throws before the promise exists, and getData throws its
    InvalidCharacterError without calling the host or sending a request;
    the loader, already shown, is left running. *)
Lemma getData_throws_on_btoa (tableau : Tableau) (pg : Page) (b u p : jsstring) :
  JSON_parse (connectionData tableau) = Normal (ConnectionConfig b u p) ->
  b <> [] -> u <> [] -> p <> [] ->
  latin1 (u ++ str ":" ++ p) = false ->
  getData fetch tableau pg
  = mkRun (Throw (mkError InvalidCharacterError InvalidCharacter_message)) []
          (showLoader pg).
Proof.
  intros Hp Hb Hu Hpw Hl. unfold getData, fetchDataForWDC. rewrite Hp.
  change (default_config (ConnectionConfig b u p)) with (ConnectionConfig b u p).
  rewrite (connection_ConnectionConfig b u p pg Hb Hu Hpw).
  unfold basic_auth, btoa. cbn [ToString bind].
  unfold latin1 in Hl. rewrite Hl. reflexivity.
Qed.

(** X1: whatever the connection data, the page and the network, a run of
    getData either throws having called no host operation, or returns
    having called abortWithError once and nothing else, or returns having
    called appendRows with the very rows the fetch was fulfilled with and
    then doneCallback: rows reach the host all together and only on
    success. *)
Theorem getData_rows_all_or_none (tableau : Tableau) (pg : Page) :
  (exists e, outcome (getData fetch tableau pg) = Throw e /\
             calls (getData fetch tableau pg) = []) \/
  (exists msg, outcome (getData fetch tableau pg) = Normal tt /\
               calls (getData fetch tableau pg) = [abortWithError msg]) \/
  (exists cfg rows pg',
      JSON_parse (connectionData tableau) = Normal cfg /\
      fetchDataForWDC fetch cfg pg = (Normal (Fulfilled rows), pg') /\
      outcome (getData fetch tableau pg) = Normal tt /\
      calls (getData fetch tableau pg) = [appendRows rows; doneCallback]).
Proof.
  unfold getData.
  destruct (JSON_parse (connectionData tableau)) as [cfg|e];
    [|left; eexists; split; reflexivity].
  destruct (fetchDataForWDC fetch cfg pg) as [[[rows|err]|e] pg'] eqn:HF.
  - right. right. exists cfg, rows, pg'.
    split; [reflexivity|]. split; [exact HF|]. split; reflexivity.
  - right. left. eexists. split; reflexivity.
  - left. eexists. split; reflexivity.
Qed.

(** X2: a response with a success status whose body is not JSON makes
    fetchDataForWDC reject with the SyntaxError of response.json(); no row
    is stored, and getData hands the message to abortWithError and returns
    normally. *)
Theorem unparsable_body_rejects (config : value) (pg : Page)
    (url : jsstring) (user pass : value) (auth : jsstring) (r : Response)
    (e : JsError) :
  connection (default_config config) pg = Normal (url, user, pass) ->
  basic_auth user pass = Normal auth ->
  fetch (mkRequest url auth) = Responds r ->
  ok r = true ->
  JSON_parse_text (body r) = Throw e ->
  let pg' := showStatus (message e) (str "error")
               (hideLoader (send (mkRequest url auth) (showLoader pg))) in
  name e = SyntaxError /\
  fetchDataForWDC fetch config pg = (Normal (Rejected e), pg') /\
  fetchedData pg' = fetchedData pg /\
  (forall tableau,
      JSON_parse (connectionData tableau) = Normal config ->
      getData fetch tableau pg
      = mkRun (Normal tt) [abortWithError (message e)] pg').
Proof.
  intros Hc Ha Hf Hok Hj pg'.
  assert (HR : on_response (fetch (mkRequest url auth)) = Rejected e).
  { rewrite Hf. unfold on_response. rewrite Hok, Hj. reflexivity. }
  assert (HF : fetchDataForWDC fetch config pg = (Normal (Rejected e), pg')).
  { rewrite (fetchDataForWDC_sends _ _ _ _ _ _ Hc Ha).
    rewrite (fetch_chain_rejected _ _ _ HR). reflexivity. }
  split.
  - unfold JSON_parse_text in Hj.
    destruct (parse_value _ _) as [v rest| |];
      [destruct (skip_ws rest)|..]; try discriminate;
      injection Hj as <-; reflexivity.
  - split; [exact HF|]. split; [reflexivity|].
    intros tableau Hp. exact (getData_rejected _ _ _ _ _ Hp HF).
Qed.

(* ------------------------------------------------------------------ *)
(** ** Beyond the specification: what the script surfaces and leaves *)

(** Every exception of the built-ins used by the mapping and the preview
    is a TypeError. *)
Lemma Get_Throw (v : value) (p : jsstring) (e : JsError) :
  Get v p = Throw e -> name e = TypeError.
Proof.
  destruct v; simpl; intros H; try discriminate; injection H as <-; reflexivity.
Qed.

Lemma GetOptional_Throw (v : value) (p : jsstring) (e : JsError) :
  GetOptional v p = Throw e -> name e = TypeError.
Proof.
  destruct v; simpl; intros H; try discriminate.
Qed.

(** Induction on a value reaches the elements of an array and the values
    of an object. *)
Lemma value_nested_ind (P : value -> Prop) :
  P Undefined -> P Null -> (forall b, P (Bool b)) -> (forall n, P (Num n)) ->
  (forall s, P (Str s)) ->
  (forall elems, Forall P elems -> P (Arr elems)) ->
  (forall props, Forall (fun kv => P (snd kv)) props -> P (Obj props)) ->
  forall v, P v.
Proof.
  intros HU HN HB HNum HS HA HO. fix IH 1.
  intros [| |b|n|s|elems|props].
  - exact HU.
  - exact HN.
  - apply HB.
  - apply HNum.
  - apply HS.
  - apply HA. induction elems as [|x l IHl]; constructor; [apply IH | exact IHl].
  - apply HO. induction props as [|[k x] l IHl]; constructor;
      [apply IH | exact IHl].
Qed.

(** An array prints as its elements joined by a comma. *)
Lemma ToString_Arr (elems : list value) :
  ToString (Arr elems) = join_from true (str ",") elems.
Proof.
  cbn [ToString].
  match goal with
  | |- ?f true elems = _ =>
      assert (H : forall first, f first elems = join_from first (str ",") elems)
  end.
  { induction elems as [|x l IH]; intros first; [reflexivity|].
    cbn [join_from].
    destruct (match x with
              | Undefined | Null => Normal []
              | _ => ToString x
              end) as [t|e]; cbn [bind]; [|reflexivity].
    rewrite IH. reflexivity. }
  apply H.
Qed.

Lemma join_from_Throw_elems (sep : jsstring) (l : list value) :
  Forall (fun x => forall e, ToString x = Throw e -> name e = TypeError) l ->
  forall (first : bool) (e : JsError),
    join_from first sep l = Throw e -> name e = TypeError.
Proof.
  induction 1 as [|x l Hx _ IH]; intros first e H; [discriminate|].
  cbn [join_from] in H.
  destruct (match x with
            | Undefined | Null => Normal []
            | _ => ToString x
            end) as [t|e'] eqn:Ht; cbn [bind] in H.
  - destruct (join_from false sep l) as [r|e''] eqn:Hl; cbn [bind] in H;
      [discriminate|]. injection H as <-. exact (IH _ _ Hl).
  - injection H as <-. destruct x; try discriminate; exact (Hx _ Ht).
Qed.

Lemma ToString_Throw (v : value) :
  forall e : JsError, ToString v = Throw e -> name e = TypeError.
Proof.
  induction v as [| |b|n|s|elems IH|props _] using value_nested_ind;
    intros e; try discriminate.
  - destruct b; discriminate.
  - rewrite ToString_Arr. apply join_from_Throw_elems, IH.
  - cbn [ToString]. destruct (has_own (str "toString") props); [|discriminate].
    intros H. injection H as <-. reflexivity.
Qed.

Lemma join_from_Throw (sep : jsstring) (l : list value) :
  forall (first : bool) (e : JsError),
    join_from first sep l = Throw e -> name e = TypeError.
Proof.
  apply join_from_Throw_elems, Forall_forall.
  intros x _ e. apply ToString_Throw.
Qed.

Lemma mapM_Throw {A B : Type} (f : A -> completion B) (P : JsError -> Prop)
    (l : list A) (e : JsError) :
  (forall a e', f a = Throw e' -> P e') -> mapM f l = Throw e -> P e.
Proof.
  intros Hf. induction l as [|a l IH]; [discriminate|]. cbn [mapM].
  destruct (f a) as [b|e'] eqn:Hfa; cbn [bind].
  - destruct (mapM f l) as [bs|e'']; cbn [bind]; [discriminate|].
    intros H. injection H as <-. now apply IH.
  - intros H. injection H as <-. exact (Hf _ _ Hfa).
Qed.

Lemma Array_map_Throw (x : value) (f : value -> completion value) (e : JsError) :
  (forall a e', f a = Throw e' -> name e' = TypeError) ->
  Array_map x f = Throw e -> name e = TypeError.
Proof.
  intros Hf. destruct x; simpl; intros H;
    try (injection H as <-; reflexivity).
  exact (mapM_Throw f (fun e => name e = TypeError) _ _ Hf H).
Qed.

Lemma joined_names_Throw (rel : value) (e : JsError) :
  joined_names rel = Throw e -> name e = TypeError.
Proof.
  unfold joined_names.
  destruct (Array_map _ _) as [names|e'] eqn:Hm; cbn [bind].
  - destruct (Array_join (str "; ") names) as [t|e''] eqn:Hj; cbn [bind];
      [discriminate|]. intros H. injection H as <-.
    exact (join_from_Throw _ _ _ _ Hj).
  - intros H. injection H as <-.
    apply (Array_map_Throw _ _ _ (fun a e' => Get_Throw a _ e') Hm).
Qed.

(** Peels the binds of a computation that ended in an exception. *)
Ltac thrown H :=
  repeat match type of H with
         | bind ?c _ = Throw _ =>
             let E := fresh "E" in
             destruct c eqn:E; cbn [bind] in H;
             [| injection H as <-;
                first [ exact (Get_Throw _ _ _ E)
                      | exact (GetOptional_Throw _ _ _ E)
                      | exact (joined_names_Throw _ _ E)
                      | exact (ToString_Throw _ _ E) ] ]
         end.

Lemma FlatUserRow_Throw (u : value) (e : JsError) :
  FlatUserRow u = Throw e -> name e = TypeError.
Proof.
  unfold FlatUserRow. intros H. thrown H. discriminate.
Qed.

Lemma row_html_Throw (r : value) (e : JsError) :
  row_html r = Throw e -> name e = TypeError.
Proof.
  unfold row_html.
  destruct (mapM _ printed_keys) as [cells|e'] eqn:Hm; cbn [bind];
    [discriminate|].
  intros H. injection H as <-.
  apply (mapM_Throw _ (fun e => name e = TypeError) _ _) in Hm; [exact Hm|].
  intros k e1 Hk. thrown Hk. exact (ToString_Throw _ _ Hk).
Qed.

(** The three ways the second [then] can end. *)
Lemma on_json_outcomes (json : value) (pg : Page) :
  (exists e,
      (users <- Get json (str "users") ;; Array_map users FlatUserRow) = Throw e /\
      on_json json pg = (Rejected e, pg)) \/
  (exists rows e,
      (users <- Get json (str "users") ;; Array_map users FlatUserRow) = Normal rows /\
      mapM row_html rows = Throw e /\
      on_json json pg = (Rejected e, set_fetchedData rows pg)) \/
  (exists rows htmls,
      (users <- Get json (str "users") ;; Array_map users FlatUserRow) = Normal rows /\
      mapM row_html rows = Normal htmls /\
      on_json json pg
      = (Fulfilled rows,
         showStatus (str "Loaded " ++ decimal (N.of_nat (List.length rows))
                     ++ str " users") (str "success")
           (hideLoader
              (set_results_display (str "block")
                 (set_tbody_innerHTML (concat_all htmls)
                    (set_fetchedData rows pg)))))).
Proof.
  unfold on_json.
  destruct (users <- Get json (str "users") ;; Array_map users FlatUserRow)
    as [rows|e]; [|left; eauto].
  cbv zeta. change (fetchedData (set_fetchedData rows pg)) with rows.
  unfold updateDataTable.
  destruct (mapM row_html rows) as [htmls|e] eqn:Hh; cbn [bind].
  - right. right. exists rows, htmls.
    split; [reflexivity|]. split; [exact Hh | reflexivity].
  - right. left. exists rows, e.
    split; [reflexivity|]. split; [exact Hh | reflexivity].
Qed.

Lemma on_json_Rejected (json : value) (pg pg' : Page) (e : JsError) :
  on_json json pg = (Rejected e, pg') -> name e = TypeError.
Proof.
  destruct (on_json_outcomes json pg)
    as [[e1 [H1 HO]] | [[rows [e1 [H1 [H2 HO]]]] | [rows [htmls [_ [_ HO]]]]]];
    rewrite HO; intros H; try discriminate; injection H as <- _.
  - destruct (Get json (str "users")) as [users|e0] eqn:HG; cbn [bind] in H1.
    + exact (Array_map_Throw _ _ _ FlatUserRow_Throw H1).
    + injection H1 as <-. exact (Get_Throw _ _ _ HG).
  - exact (mapM_Throw _ (fun e => name e = TypeError) _ _ row_html_Throw H2).
Qed.

Lemma JSON_parse_text_Throw (text : jsstring) (e : JsError) :
  JSON_parse_text text = Throw e -> name e = SyntaxError.
Proof.
  unfold JSON_parse_text.
  destruct (parse_value _ _) as [v rest| |];
    [destruct (skip_ws rest)|..]; intros H; try discriminate;
    injection H as <-; reflexivity.
Qed.

(** The promise chain, case by case on the response and the body. *)
Lemma fetch_chain_outcomes (res : FetchResult) (pg : Page) :
  (exists e, res = NetworkFailure e /\
             fetch_chain res pg = (Rejected e, failed e pg)) \/
  (exists r, res = Responds r /\ ok r = false /\
             fetch_chain res pg
             = (Rejected (HttpError (status r) (statusText r)),
                failed (HttpError (status r) (statusText r)) pg)) \/
  (exists r e, res = Responds r /\ ok r = true /\
               JSON_parse_text (body r) = Throw e /\
               fetch_chain res pg = (Rejected e, failed e pg)) \/
  (exists r json e pg1,
      res = Responds r /\ ok r = true /\
      JSON_parse_text (body r) = Normal json /\
      on_json json pg = (Rejected e, pg1) /\
      fetch_chain res pg = (Rejected e, failed e pg1)) \/
  (exists r json rows pg1,
      res = Responds r /\ ok r = true /\
      JSON_parse_text (body r) = Normal json /\
      on_json json pg = (Fulfilled rows, pg1) /\
      fetch_chain res pg = (Fulfilled rows, pg1)).
Proof.
  unfold fetch_chain. destruct res as [r|e].
  - cbn [on_response]. destruct (ok r) eqn:Hok; cbn [negb].
    + destruct (JSON_parse_text (body r)) as [json|e] eqn:Hj; cbn [settle].
      * destruct (on_json json pg) as [[rows|e] pg1] eqn:HO.
        -- do 4 right. exists r, json, rows, pg1. auto.
        -- do 3 right. left. exists r, json, e, pg1. auto.
      * do 2 right. left. exists r, e. auto.
    + right. left. exists r. auto.
  - left. exists e. auto.
Qed.

(** X3: when the network gives no response, fetchDataForWDC rejects with
    the very error of fetch, shows its message as an error status, stores
    no row, and getData hands that message to abortWithError. *)
Theorem network_failure_rejects (config : value) (pg : Page)
    (url : jsstring) (user pass : value) (auth : jsstring) (e : JsError) :
  connection (default_config config) pg = Normal (url, user, pass) ->
  basic_auth user pass = Normal auth ->
  fetch (mkRequest url auth) = NetworkFailure e ->
  let pg' := showStatus (message e) (str "error")
               (hideLoader (send (mkRequest url auth) (showLoader pg))) in
  fetchDataForWDC fetch config pg = (Normal (Rejected e), pg') /\
  textContent (status_line pg') = message e /\
  fetchedData pg' = fetchedData pg /\
  (forall tableau,
      JSON_parse (connectionData tableau) = Normal config ->
      getData fetch tableau pg
      = mkRun (Normal tt) [abortWithError (message e)] pg').
Proof.
  intros Hc Ha Hf pg'.
  assert (HF : fetchDataForWDC fetch config pg = (Normal (Rejected e), pg')).
  { rewrite (fetchDataForWDC_sends _ _ _ _ _ _ Hc Ha), Hf. reflexivity. }
  split; [exact HF|]. split; [reflexivity|]. split; [reflexivity|].
  intros tableau Hp. exact (getData_rejected _ _ _ _ _ Hp HF).
Qed.

(** X4: every rejection of fetchDataForWDC is of one of four kinds: the
    error of the network; the HttpError of a response with a non-success
    status; the SyntaxError of a body that is not JSON; or a TypeError
    raised while mapping the parsed body or rendering the preview.  In each
    case the status line shows the error's message with the class
    [status error]. *)
Theorem rejection_kinds (config : value) (pg pg' : Page)
    (url : jsstring) (user pass : value) (auth : jsstring) (e : JsError) :
  connection (default_config config) pg = Normal (url, user, pass) ->
  basic_auth user pass = Normal auth ->
  fetchDataForWDC fetch config pg = (Normal (Rejected e), pg') ->
  status_line pg' = mkStatus (message e) (str "status error") (str "block") /\
  (fetch (mkRequest url auth) = NetworkFailure e \/
   (exists r, fetch (mkRequest url auth) = Responds r /\ ok r = false /\
              e = HttpError (status r) (statusText r)) \/
   (exists r, fetch (mkRequest url auth) = Responds r /\ ok r = true /\
              JSON_parse_text (body r) = Throw e /\ name e = SyntaxError) \/
   (exists r json, fetch (mkRequest url auth) = Responds r /\ ok r = true /\
                   JSON_parse_text (body r) = Normal json /\
                   name e = TypeError)).
Proof.
  intros Hc Ha HF.
  rewrite (fetchDataForWDC_sends _ _ _ _ _ _ Hc Ha) in HF.
  destruct (fetch_chain_outcomes (fetch (mkRequest url auth))
              (send (mkRequest url auth) (showLoader pg)))
    as [[e1 [Hr H]] | [[r [Hr [Hok H]]] | [[r [e1 [Hr [Hok [Hj H]]]]]
       | [[r [json [e1 [pg1 [Hr [Hok [Hj [HO H]]]]]]]]
         | [r [json [rows [pg1 [Hr [Hok [Hj [HO H]]]]]]]]]]]];
    rewrite H in HF; cbn [fst snd] in HF; try discriminate;
    injection HF as <- <-; (split; [reflexivity|]).
  - left. exact Hr.
  - right. left. exists r. auto.
  - right. right. left. exists r.
    repeat split; try assumption. exact (JSON_parse_text_Throw _ _ Hj).
  - right. right. right. exists r, json.
    repeat split; try assumption. exact (on_json_Rejected _ _ _ _ HO).
Qed.

(** X5: a call of fetchDataForWDC sends at most one request: none when it
    throws before the promise exists, exactly one otherwise, whatever the
    response (there is no retry). *)
Theorem one_request_per_call (config : value) (pg : Page) :
  match fst (fetchDataForWDC fetch config pg) with
  | Throw _ =>
      requests (snd (fetchDataForWDC fetch config pg)) = requests pg
  | Normal _ =>
      exists req,
        requests (snd (fetchDataForWDC fetch config pg)) = requests pg ++ [req]
  end.
Proof.
  unfold fetchDataForWDC.
  destruct (connection (default_config config) pg) as [[[url user] pass]|e];
    [|reflexivity].
  destruct (basic_auth user pass) as [auth|e]; [|reflexivity].
  destruct (fetch_chain _ _) as [p pg'] eqn:HC. cbn [fst snd].
  exists (mkRequest url auth).
  change pg' with (snd (p, pg')). rewrite <- HC.
  rewrite fetch_chain_requests. reflexivity.
Qed.

(** What the promise chain leaves on the page. *)
Lemma fetch_chain_page (res : FetchResult) (pg : Page) :
  let run := fetch_chain res pg in
  loader (snd run)
  = mkLoader (loader_display (loader pg)) (progressBar_display (loader pg))
             100 false true /\
  status_display (status_line (snd run)) = str "block" /\
  match fst run with
  | Fulfilled rows =>
      fetchedData (snd run) = rows /\
      results_display (snd run) = str "block" /\
      textContent (status_line (snd run))
      = str "Loaded " ++ decimal (N.of_nat (List.length rows)) ++ str " users" /\
      className (status_line (snd run)) = str "status success"
  | Rejected e =>
      results_display (snd run) = results_display pg /\
      tbody_innerHTML (snd run) = tbody_innerHTML pg /\
      textContent (status_line (snd run)) = message e /\
      className (status_line (snd run)) = str "status error"
  end.
Proof.
  cbv zeta.
  destruct (fetch_chain_outcomes res pg)
    as [[e1 [Hr H]] | [[r [Hr [Hok H]]] | [[r [e1 [Hr [Hok [Hj H]]]]]
       | [[r [json [e1 [pg1 [Hr [Hok [Hj [HO H]]]]]]]]
         | [r [json [rows [pg1 [Hr [Hok [Hj [HO H]]]]]]]]]]]];
    rewrite H; cbn [fst snd]; try (repeat split; reflexivity).
  - destruct (on_json_outcomes json pg)
      as [[e2 [_ H2]] | [[rows [e2 [_ [_ H2]]]] | [rows [htmls [_ [_ H2]]]]]];
      rewrite H2 in HO; try discriminate; injection HO as <- <-;
      repeat split; reflexivity.
  - destruct (on_json_outcomes json pg)
      as [[e2 [_ H2]] | [[rows2 [e2 [_ [_ H2]]]] | [rows2 [htmls [_ [_ H2]]]]]];
      rewrite H2 in HO; try discriminate; injection HO as <- <-;
      repeat split; reflexivity.
Qed.

(** X6: once the promise of fetchDataForWDC has settled, the progress timer
    is stopped, the bar is at 100, the delayed hiding is scheduled and the
    status line is shown.  If it is fulfilled, fetchedData holds the rows
    returned (whatever it held before), the results are revealed and the
    status reads [Loaded n users] for the n rows, with the class
    [status success]; if it is rejected, the results and the preview table
    are as they were and the status shows the error's message with the class
    [status error]. *)
Theorem settled_fetch_page (config : value) (pg pg' : Page)
    (p : promise (list value)) :
  fetchDataForWDC fetch config pg = (Normal p, pg') ->
  loader pg' = mkLoader (str "block") (str "block") 100 false true /\
  status_display (status_line pg') = str "block" /\
  match p with
  | Fulfilled rows =>
      fetchedData pg' = rows /\
      results_display pg' = str "block" /\
      textContent (status_line pg')
      = str "Loaded " ++ decimal (N.of_nat (List.length rows)) ++ str " users" /\
      className (status_line pg') = str "status success"
  | Rejected e =>
      results_display pg' = results_display pg /\
      tbody_innerHTML pg' = tbody_innerHTML pg /\
      textContent (status_line pg') = message e /\
      className (status_line pg') = str "status error"
  end.
Proof.
  unfold fetchDataForWDC.
  destruct (connection (default_config config) pg) as [[[url user] pass]|e];
    [|discriminate].
  destruct (basic_auth user pass) as [auth|e]; [|discriminate].
  pose proof (fetch_chain_page (fetch (mkRequest url auth))
                (send (mkRequest url auth) (showLoader pg))) as HP.
  cbv zeta in HP.
  destruct (fetch_chain _ _) as [p1 pg1]. cbn [fst snd] in HP.
  intros H. injection H as <- <-. exact HP.
Qed.

Lemma mapM_In_Throw {A B : Type} (f : A -> completion B) (l : list A)
    (a : A) (e0 : JsError) :
  In a l -> f a = Throw e0 -> exists e, mapM f l = Throw e.
Proof.
  induction l as [|x l IH]; intros Hin Ha; [contradiction|]. cbn [mapM].
  destruct (f x) as [b|e] eqn:Hx; cbn [bind]; [|eauto].
  destruct Hin as [->|Hin]; [congruence|].
  destruct (IH Hin Ha) as [e He]. rewrite He. cbn [bind]. eauto.
Qed.

(** The fetch on a response with a success status and a body that parses. *)
Lemma fetchDataForWDC_parsed (config : value) (pg : Page)
    (url : jsstring) (user pass : value) (auth : jsstring) (r : Response)
    (json : value) :
  connection (default_config config) pg = Normal (url, user, pass) ->
  basic_auth user pass = Normal auth ->
  fetch (mkRequest url auth) = Responds r ->
  ok r = true ->
  JSON_parse_text (body r) = Normal json ->
  fetchDataForWDC fetch config pg
  = match on_json json (send (mkRequest url auth) (showLoader pg)) with
    | (Rejected err, pg1) => (Normal (Rejected err), failed err pg1)
    | (Fulfilled rows, pg1) => (Normal (Fulfilled rows), pg1)
    end.
Proof.
  intros Hc Ha Hf Hok Hj.
  rewrite (fetchDataForWDC_sends _ _ _ _ _ _ Hc Ha).
  unfold fetch_chain. rewrite Hf. unfold on_response.
  rewrite Hok, Hj. cbn [negb settle].
  destruct (on_json _ _) as [[rows|err] pg1]; reflexivity.
Qed.

(** X7: when rendering the preview throws (a field of a row cannot be
    converted to a string), fetchDataForWDC rejects with that TypeError and
    getData aborts without delivering a row, yet fetchedData already holds
    the new rows: it is assigned before the preview is rendered; the preview
    table keeps its former content. *)
Theorem preview_failure_keeps_new_rows (config : value) (pg : Page)
    (url : jsstring) (user pass : value) (auth : jsstring) (r : Response)
    (json : value) (users rows : list value) (e : JsError) :
  connection (default_config config) pg = Normal (url, user, pass) ->
  basic_auth user pass = Normal auth ->
  fetch (mkRequest url auth) = Responds r ->
  ok r = true ->
  JSON_parse_text (body r) = Normal json ->
  Get json (str "users") = Normal (Arr users) ->
  mapM FlatUserRow users = Normal rows ->
  mapM row_html rows = Throw e ->
  exists pg',
    fetchDataForWDC fetch config pg = (Normal (Rejected e), pg') /\
    name e = TypeError /\
    fetchedData pg' = rows /\
    tbody_innerHTML pg' = tbody_innerHTML pg /\
    (forall tableau,
        JSON_parse (connectionData tableau) = Normal config ->
        getData fetch tableau pg
        = mkRun (Normal tt) [abortWithError (message e)] pg').
Proof.
  intros Hc Ha Hf Hok Hj HG Hm Hh.
  assert (HF : fetchDataForWDC fetch config pg
               = (Normal (Rejected e),
                  failed e (set_fetchedData rows
                              (send (mkRequest url auth) (showLoader pg))))).
  { rewrite (fetchDataForWDC_parsed _ _ _ _ _ _ _ _ Hc Ha Hf Hok Hj).
    unfold on_json. rewrite HG. cbn [bind Array_map]. rewrite Hm.
    cbv zeta. change (fetchedData (set_fetchedData rows ?x)) with rows.
    unfold updateDataTable. rewrite Hh. reflexivity. }
  eexists. split; [exact HF|].
  split; [exact (mapM_Throw _ (fun e => name e = TypeError) _ _ row_html_Throw Hh)|].
  split; [reflexivity|]. split; [reflexivity|].
  intros tableau Hp. exact (getData_rejected _ _ _ _ _ Hp HF).
Qed.

(** X8: one record that cannot be mapped (null itself, or with a null
    element or a non-array in a list relation) rejects the whole fetch with
    a TypeError: no row of the other records is stored, previewed or
    delivered, and getData aborts. *)
Theorem bad_record_rejects_all (config : value) (pg : Page)
    (url : jsstring) (user pass : value) (auth : jsstring) (r : Response)
    (json : value) (users : list value) (u : value) (e0 : JsError) :
  connection (default_config config) pg = Normal (url, user, pass) ->
  basic_auth user pass = Normal auth ->
  fetch (mkRequest url auth) = Responds r ->
  ok r = true ->
  JSON_parse_text (body r) = Normal json ->
  Get json (str "users") = Normal (Arr users) ->
  In u users ->
  FlatUserRow u = Throw e0 ->
  exists e pg',
    fetchDataForWDC fetch config pg = (Normal (Rejected e), pg') /\
    name e = TypeError /\
    fetchedData pg' = fetchedData pg /\
    tbody_innerHTML pg' = tbody_innerHTML pg /\
    (forall tableau,
        JSON_parse (connectionData tableau) = Normal config ->
        getData fetch tableau pg
        = mkRun (Normal tt) [abortWithError (message e)] pg').
Proof.
  intros Hc Ha Hf Hok Hj HG Hin Hu.
  destruct (mapM_In_Throw FlatUserRow users u e0 Hin Hu) as [e He].
  assert (HF : fetchDataForWDC fetch config pg
               = (Normal (Rejected e),
                  failed e (send (mkRequest url auth) (showLoader pg)))).
  { rewrite (fetchDataForWDC_parsed _ _ _ _ _ _ _ _ Hc Ha Hf Hok Hj).
    rewrite (on_json_mapping_throws json _ e); [reflexivity|].
    rewrite HG. exact He. }
  exists e. eexists. split; [exact HF|].
  split; [exact (mapM_Throw _ (fun e => name e = TypeError) _ _ FlatUserRow_Throw He)|].
  split; [reflexivity|]. split; [reflexivity|].
  intros tableau Hp. exact (getData_rejected _ _ _ _ _ Hp HF).
Qed.

(** X9: an empty users array is a success: fetchDataForWDC is fulfilled
    with no row, the preview table is emptied, the status reads
    [Loaded 0 users], and getData appends the empty list and completes. *)
Theorem empty_users_succeed (config : value) (pg : Page)
    (url : jsstring) (user pass : value) (auth : jsstring) (r : Response)
    (json : value) :
  connection (default_config config) pg = Normal (url, user, pass) ->
  basic_auth user pass = Normal auth ->
  fetch (mkRequest url auth) = Responds r ->
  ok r = true ->
  JSON_parse_text (body r) = Normal json ->
  Get json (str "users") = Normal (Arr []) ->
  exists pg',
    fetchDataForWDC fetch config pg = (Normal (Fulfilled []), pg') /\
    fetchedData pg' = [] /\
    tbody_innerHTML pg' = [] /\
    textContent (status_line pg') = str "Loaded 0 users" /\
    (forall tableau,
        JSON_parse (connectionData tableau) = Normal config ->
        getData fetch tableau pg
        = mkRun (Normal tt) [appendRows []; doneCallback] pg').
Proof.
  intros Hc Ha Hf Hok Hj HG.
  eassert (HF : fetchDataForWDC fetch config pg = (Normal (Fulfilled []), _)).
  { rewrite (fetchDataForWDC_parsed _ _ _ _ _ _ _ _ Hc Ha Hf Hok Hj).
    unfold on_json. rewrite HG. reflexivity. }
  eexists. split; [exact HF|].
  split; [reflexivity|]. split; [reflexivity|]. split; [reflexivity|].
  intros tableau Hp. exact (getData_fulfilled _ _ _ _ _ Hp HF).
Qed.

(** X10: the default of the parameter does not cover null.  With the
    configuration null, fetchDataForWDC throws the TypeError of reading
    [baseUrl] before anything is shown or sent, and getData, whose saved
    connection data is the text [null] (or parses to null), throws it
    without calling the host. *)
Theorem null_config_throws (pg : Page) (name : value) :
  let err := mkError TypeError (TypeError_message (ReadOfNull (str "baseUrl"))) in
  fetchDataForWDC fetch Null pg = (Throw err, pg) /\
  getData fetch (mkTableau (Str (str "null")) name) pg = mkRun (Throw err) [] pg /\
  (forall tableau,
      JSON_parse (connectionData tableau) = Normal Null ->
      getData fetch tableau pg = mkRun (Throw err) [] pg).
Proof.
  cbv zeta. split; [reflexivity|]. split; [reflexivity|].
  intros tableau Hp. unfold getData. rewrite Hp. reflexivity.
Qed.

(* ------------------------------------------------------------------ *)
(** ** Beyond the specification: the mapping *)

(** Joining pieces: a missing or null name gives an empty piece between
    its separators. *)
Lemma join_from_pieces (sep : jsstring) (vs : list value) (pieces : list jsstring) :
  Forall2 name_piece vs pieces ->
  join_from false sep vs = Normal (concat_all (map (fun n => sep ++ n) pieces)).
Proof.
  induction 1 as [|v n vs pieces Hv _ IH]; [reflexivity|].
  cbn [join_from]. rewrite IH.
  destruct Hv; cbn [ToString bind map]; unfold concat_all;
    cbn [List.concat]; now rewrite <- ?app_assoc.
Qed.

Lemma Array_join_pieces (sep : jsstring) (vs : list value) (pieces : list jsstring) :
  Forall2 name_piece vs pieces ->
  Array_join sep vs = Normal (joined sep pieces).
Proof.
  intros [|v n vs' pieces' Hv H]; [reflexivity|].
  rewrite joined_cons. unfold Array_join. cbn [join_from].
  rewrite (join_from_pieces _ _ _ H).
  destruct Hv; reflexivity.
Qed.

Lemma joined_names_pieces (rel : value) (pieces : list jsstring) :
  relation_pieces rel pieces ->
  joined_names rel = Normal (Str (joined (str "; ") pieces)).
Proof.
  intros [rel' Hf|elems pieces' H].
  - unfold joined_names, or_else. rewrite Hf. reflexivity.
  - unfold joined_names. change (or_else (Arr elems) (Arr [])) with (Arr elems).
    cbn [Array_map].
    assert (Hm : exists vs, mapM (fun o => Get o (str "name")) elems = Normal vs
                            /\ Forall2 name_piece vs pieces').
    { induction H as [|o p elems pieces' [v [Hv Hp]] _ [vs [Hm Hvs]]].
      - exists []. split; [reflexivity | constructor].
      - exists (v :: vs). cbn [mapM]. rewrite Hv, Hm.
        split; [reflexivity | now constructor]. }
    destruct Hm as [vs [Hm Hvs]]. rewrite Hm. cbn [bind].
    rewrite (Array_join_pieces _ _ _ Hvs). reflexivity.
Qed.

(** X11: in a list relation an element whose name is missing or null
    contributes an empty piece, so its separators remain (A, no name, B
    give [A; ; B]); a relation that is null or otherwise falsy gives the
    empty string like an absent one. *)
Theorem relations_joined_pieces (props : list (jsstring * value))
    (ou ur ug : list jsstring) :
  relation_pieces (own (str "organisationUnits") props) ou ->
  relation_pieces (own (str "userRoles") props) ur ->
  relation_pieces (own (str "userGroups") props) ug ->
  exists row,
    FlatUserRow (Obj props) = Normal (Obj row) /\
    own (str "orgUnits") row = Str (joined (str "; ") ou) /\
    own (str "roles") row = Str (joined (str "; ") ur) /\
    own (str "groups") row = Str (joined (str "; ") ug).
Proof.
  intros Hou Hur Hug.
  destruct (FlatUserRow_Obj props _ _ _
              (joined_names_pieces _ _ Hou)
              (joined_names_pieces _ _ Hur)
              (joined_names_pieces _ _ Hug)) as [lastLogin [_ Hrow]].
  eexists. split; [exact Hrow|].
  repeat split; read_own; reflexivity.
Qed.

Lemma or_else_truthy (a b : value) : ToBoolean a = true -> or_else a b = a.
Proof. intros H. unfold or_else. now rewrite H. Qed.

Lemma or_else_falsy (a b : value) : ToBoolean a = false -> or_else a b = b.
Proof. intros H. unfold or_else. now rewrite H. Qed.

(** X12: an optional field is kept as it is when the source value is
    truthy (a non-empty string, [true], ...) and replaced by its default
    when it is falsy, present or not: null, [false], the empty string are
    treated like a missing field.  Null credentials give an empty
    lastLogin. *)
Theorem optional_values_by_truthiness (props : list (jsstring * value))
    (ou ur ug : list jsstring) :
  relation_names (own (str "organisationUnits") props) ou ->
  relation_names (own (str "userRoles") props) ur ->
  relation_names (own (str "userGroups") props) ug ->
  exists row,
    FlatUserRow (Obj props) = Normal (Obj row) /\
    Forall (fun '(src, dst, default) =>
              (ToBoolean (own src props) = true -> own dst row = own src props) /\
              (ToBoolean (own src props) = false -> own dst row = default))
           [(str "gender", str "gender", Str []);
            (str "email", str "email", Str []);
            (str "phoneNumber", str "phone", Str []);
            (str "jobTitle", str "jobTitle", Str []);
            (str "disabled", str "disabled", Bool false)] /\
    (own (str "userCredentials") props = Null ->
     own (str "lastLogin") row = Str []) /\
    (forall c, own (str "userCredentials") props = Obj c ->
               (ToBoolean (own (str "lastLogin") c) = true ->
                own (str "lastLogin") row = own (str "lastLogin") c) /\
               (ToBoolean (own (str "lastLogin") c) = false ->
                own (str "lastLogin") row = Str [])).
Proof.
  intros Hou Hur Hug.
  destruct (FlatUserRow_Obj props _ _ _
              (joined_names_relation _ _ Hou)
              (joined_names_relation _ _ Hur)
              (joined_names_relation _ _ Hug)) as [lastLogin [HL Hrow]].
  eexists. split; [exact Hrow|]. split; [|split].
  - repeat (apply Forall_cons;
            [split; intros H; read_own;
             [now apply or_else_truthy | now apply or_else_falsy]|]).
    apply Forall_nil.
  - intros Hc. read_own. rewrite Hc in HL. injection HL as <-. reflexivity.
  - intros c Hc. rewrite Hc in HL. cbn [GetOptional Get] in HL.
    injection HL as <-.
    split; intros H; read_own;
      [now apply or_else_truthy | now apply or_else_falsy].
Qed.

(** Peels the binds of a computation that returned. *)
Ltac returned H :=
  repeat match type of H with
         | bind ?c _ = Normal _ =>
             destruct c eqn:?; cbn [bind] in H; [|discriminate H]
         end.

(** Whatever the record, a row that is produced is an object with the 16
    keys. *)
Lemma FlatUserRow_keys (u r : value) :
  FlatUserRow u = Normal r -> exists row, r = Obj row /\ map fst row = row_keys.
Proof.
  unfold FlatUserRow. intros H. returned H.
  injection H as <-. eexists. split; reflexivity.
Qed.

Lemma row_keys_NoDup : NoDup row_keys.
Proof.
  unfold row_keys.
  repeat (apply NoDup_cons; [cbv; intuition discriminate|]).
  apply NoDup_nil.
Qed.

(** X13: the rows fit the schema: every row the mapping produces has one
    value for each of the 16 column ids getSchema declares and no other
    key. *)
Theorem rows_fit_schema (pg : Page) (u r : value) :
  FlatUserRow u = Normal r ->
  exists cols row,
    calls (getSchema pg) = [schemaCallback [TableInfo.mk (str "DHIS2Users") cols]] /\
    r = Obj row /\
    NoDup (map fst row) /\
    List.length row = List.length cols /\
    (forall k, In k (map ColumnInfo.id cols) <-> In k (map fst row)).
Proof.
  intros H. destruct (FlatUserRow_keys u r H) as [row [-> Hk]].
  eexists. exists row. split; [reflexivity|]. split; [reflexivity|].
  rewrite Hk. split; [exact row_keys_NoDup|]. split.
  - rewrite <- (length_map fst row), Hk. reflexivity.
  - intros k. cbn [map ColumnInfo.id]. unfold row_keys. cbn [In]. tauto.
Qed.

(* ------------------------------------------------------------------ *)
(** ** Beyond the specification: where the connection comes from *)

Lemma or_else_pick (a b : jsstring) : or_else (Str a) (Str b) = Str (pick a b).
Proof. destruct a; reflexivity. Qed.

(** Each connection parameter is the configuration's unless that is the
    empty string; then it is the input's. *)
Lemma connection_pick (b u p : jsstring) (pg : Page) :
  connection (ConnectionConfig b u p) pg
  = Normal (pick b (baseUrl_value (inputs pg)) ++ users_query,
            Str (pick u (username_value (inputs pg))),
            Str (pick p (password_value (inputs pg)))).
Proof.
  unfold connection, ConnectionConfig. cbn [Get bind].
  read_own. read_own. read_own.
  rewrite !or_else_pick. reflexivity.
Qed.

(** Without a configuration the parameters are the inputs'. *)
Lemma connection_inputs (pg : Page) :
  connection (default_config Undefined) pg
  = Normal (baseUrl_value (inputs pg) ++ users_query,
            Str (username_value (inputs pg)),
            Str (password_value (inputs pg))).
Proof. reflexivity. Qed.

(** What the submit handler saves parses back to the configuration of the
    inputs. *)
Lemma submit_parses_back (tableau : Tableau) (pg : Page) :
  JSON_parse (connectionData (fst (submitButton_click tableau pg)))
  = Normal (ConnectionConfig (baseUrl_value (inputs pg))
                             (username_value (inputs pg))
                             (password_value (inputs pg))).
Proof.
  unfold submitButton_click. cbn [fst connectionData].
  unfold JSON_stringify.
  change (Obj [(str "baseUrl", Str (baseUrl_value (inputs pg)));
               (str "username", Str (username_value (inputs pg)));
               (str "password", Str (password_value (inputs pg)))])
    with (ConnectionConfig (baseUrl_value (inputs pg))
                           (username_value (inputs pg))
                           (password_value (inputs pg))).
  rewrite SerializeJSONProperty_ConnectionConfig.
  unfold JSON_parse. cbn [ToString bind].
  apply JSON_parse_text_ConnectionConfig, SerializeJSONProperty_ConnectionConfig.
Qed.

Lemma getData_page (tableau : Tableau) (pg : Page) (cfg : value) :
  JSON_parse (connectionData tableau) = Normal cfg ->
  page (getData fetch tableau pg) = snd (fetchDataForWDC fetch cfg pg).
Proof.
  intros Hp. unfold getData. rewrite Hp.
  destruct (fetchDataForWDC fetch cfg pg) as [[[rows|err]|e] pg']; reflexivity.
Qed.

(** X14: submit, then getData.  The request getData sends is built from
    what the submit handler saved: for each of base URL, username and
    password, the value the form held at submit time, or, if that was
    empty, the value the form holds when getData runs.  No validation
    stands in between: the handler saves and submits whatever the form
    holds. *)
Theorem saved_configuration_is_used (tableau : Tableau) (pg1 pg2 : Page) :
  let base := pick (baseUrl_value (inputs pg1)) (baseUrl_value (inputs pg2)) in
  let user := pick (username_value (inputs pg1)) (username_value (inputs pg2)) in
  let pass := pick (password_value (inputs pg1)) (password_value (inputs pg2)) in
  latin1 (user ++ str ":" ++ pass) = true ->
  snd (submitButton_click tableau pg1) = [submit] /\
  requests (page (getData fetch (fst (submitButton_click tableau pg1)) pg2))
  = requests pg2
    ++ [mkRequest (base ++ users_query)
                  (str "Basic " ++ b64_encode (user ++ str ":" ++ pass))].
Proof.
  intros base user pass Hl. split; [reflexivity|].
  rewrite (getData_page _ _ _ (submit_parses_back tableau pg1)).
  rewrite (fetchDataForWDC_sends
             (ConnectionConfig (baseUrl_value (inputs pg1))
                               (username_value (inputs pg1))
                               (password_value (inputs pg1)))
             pg2 _ _ _ _
             (connection_pick _ _ _ pg2) (basic_auth_latin1 _ _ Hl)).
  cbn [snd]. rewrite fetch_chain_requests. reflexivity.
Qed.

(** X15: the fetch button calls fetchDataForWDC without a configuration:
    the request is built from the three inputs as they are, empty or not
    (an empty base URL gives the relative URL [/api/users.json?...]). *)
Theorem preview_uses_inputs (pg : Page) :
  latin1 (username_value (inputs pg) ++ str ":" ++ password_value (inputs pg))
  = true ->
  requests (snd (fetchButton_click fetch pg))
  = requests pg
    ++ [mkRequest (baseUrl_value (inputs pg) ++ users_query)
                  (str "Basic "
                   ++ b64_encode (username_value (inputs pg) ++ str ":"
                                  ++ password_value (inputs pg)))].
Proof.
  intros Hl. unfold fetchButton_click.
  rewrite (fetchDataForWDC_sends Undefined pg _ _ _ _
             (connection_inputs pg) (basic_auth_latin1 _ _ Hl)).
  cbn [snd]. rewrite fetch_chain_requests. reflexivity.
Qed.

(* ------------------------------------------------------------------ *)
(** ** Beyond the specification: the preview and the selector *)

Lemma mapM_In {A B : Type} (f : A -> completion B) (l : list A) (bs : list B)
    (a : A) :
  mapM f l = Normal bs -> In a l -> exists b, f a = Normal b /\ In b bs.
Proof.
  revert bs; induction l as [|x l IH]; intros bs H Hin; [contradiction|].
  cbn [mapM] in H.
  destruct (f x) as [b|] eqn:Hx; cbn [bind] in H; [|discriminate].
  destruct (mapM f l) as [bs'|]; cbn [bind] in H; [|discriminate].
  injection H as <-. destruct Hin as [->|Hin].
  - exists b. split; [exact Hx | now left].
  - destruct (IH bs' eq_refl Hin) as [b' [Hb Hin']].
    exists b'. split; [exact Hb | now right].
Qed.

Lemma concat_all_In (h : jsstring) (l : list jsstring) :
  In h l -> exists before after, concat_all l = before ++ h ++ after.
Proof.
  intros Hin. apply in_split in Hin as [l1 [l2 ->]].
  exists (concat_all l1), (concat_all l2).
  unfold concat_all. rewrite concat_app. reflexivity.
Qed.

Lemma row_html_cells (r : value) (cells : list jsstring) :
  mapM (fun k => v <- Get r k ;; ToString v) printed_keys = Normal cells ->
  row_html r
  = Normal (nl ++ str "      <tr>" ++ nl
            ++ concat_all
                 (map (fun c => str "        <td>" ++ c ++ str "</td>" ++ nl) cells)
            ++ str "      </tr>" ++ nl ++ str "    ").
Proof.
  intros H. unfold row_html. rewrite H. reflexivity.
Qed.

(** X16: the preview does not escape: a string held by a row under one of
    the printed keys stands verbatim between [<td>] and [</td>] in the HTML
    assigned to the table body, markup included. *)
Theorem preview_is_unescaped (rows : list value) (row : list (jsstring * value))
    (k s : jsstring) (pg : Page) :
  Forall (fun r => exists ps, r = Obj ps /\ Forall (fun kv => scalar (snd kv)) ps)
         rows ->
  In (Obj row) rows ->
  In k printed_keys ->
  own k row = Str s ->
  exists pg' before after,
    updateDataTable rows pg = Normal pg' /\
    tbody_innerHTML pg' = before ++ str "<td>" ++ s ++ str "</td>" ++ after.
Proof.
  intros Hrows Hin Hk Hs.
  destruct (mapM_total row_html rows) as [htmls Hh].
  { apply Forall_forall. intros r Hr.
    rewrite Forall_forall in Hrows. destruct (Hrows r Hr) as [ps [-> Hps]].
    now apply row_html_scalars. }
  destruct (mapM_In _ _ _ _ Hh Hin) as [html [Hhtml Hin']].
  destruct (mapM (fun k => v <- Get (Obj row) k ;; ToString v) printed_keys)
    as [cells|e] eqn:Hc;
    [|unfold row_html in Hhtml; rewrite Hc in Hhtml; discriminate Hhtml].
  rewrite (row_html_cells _ _ Hc) in Hhtml.
  apply (f_equal (fun c => match c with Normal x => x | Throw _ => [] end))
    in Hhtml.
  cbv beta iota in Hhtml. subst html.
  destruct (mapM_In _ _ _ _ Hc Hk) as [cell [Hcell Hcin]].
  cbn [Get bind] in Hcell. rewrite Hs in Hcell. cbn [ToString] in Hcell.
  injection Hcell as <-.
  destruct (concat_all_In _ _
              (in_map (fun c => str "        <td>" ++ c ++ str "</td>" ++ nl)
                      _ _ Hcin)) as [b1 [a1 H1]].
  destruct (concat_all_In _ _ Hin') as [b2 [a2 H2]].
  unfold updateDataTable. rewrite Hh. cbn [bind].
  eexists. exists (b2 ++ nl ++ str "      <tr>" ++ nl ++ b1 ++ str "        ").
  exists (nl ++ a1 ++ str "      </tr>" ++ nl ++ str "    " ++ a2).
  split; [reflexivity|].
  change (tbody_innerHTML (set_tbody_innerHTML ?h pg)) with h.
  rewrite H2, H1.
  change (str "        <td>") with (str "        " ++ str "<td>").
  repeat rewrite <- app_assoc. reflexivity.
Qed.

(** Replacing the value of one key leaves the other keys as they read. *)
Lemma own_elsewhere (k k0 : jsstring) (v v' : value)
    (before after : list (jsstring * value)) :
  k <> k0 ->
  own k (before ++ (k0, v) :: after) = own k (before ++ (k0, v') :: after).
Proof.
  intros Hk. unfold own.
  induction before as [|[k1 v1] before IH]; cbn [app lookup].
  - destruct (jsstring_eqb k k0) eqn:He; [|reflexivity].
    apply jsstring_eqb_eq in He. contradiction.
  - destruct (jsstring_eqb k k1); [reflexivity|exact IH].
Qed.

(** X17: the mapping reads [u.disabled] although the request never selects
    it.  The query of the request is the selector, whose entries ask for
    every key the mapping reads except [disabled]; the row depends on those
    keys only; and it does depend on [disabled]: a record whose flag is
    missing or falsy gets [disabled: false], and the same record with a
    truthy flag gets a row that holds the flag and is otherwise the same. *)
Theorem mapping_reads_unselected_field :
  users_query
  = str "/api/users.json?fields=" ++ joined (str ",") selector
    ++ str "&paging=false" /\
  (forall k, In k source_keys ->
     existsb (selects k) selector = negb (jsstring_eqb k (str "disabled"))) /\
  (forall props props',
      (forall k, In k source_keys -> own k props = own k props') ->
      FlatUserRow (Obj props) = FlatUserRow (Obj props')) /\
  (forall props row v,
      FlatUserRow (Obj props) = Normal (Obj row) ->
      ToBoolean (own (str "disabled") props) = false ->
      ToBoolean v = true ->
      own (str "disabled") row = Bool false /\
      exists row',
        FlatUserRow (Obj ((str "disabled", v) :: props)) = Normal (Obj row') /\
        own (str "disabled") row' = v /\
        (forall k, k <> str "disabled" -> own k row' = own k row)).
Proof.
  split; [reflexivity|]. split.
  { intros k Hk. unfold source_keys, scalar_keys in Hk. cbn [app In] in Hk.
    repeat (destruct Hk as [<-|Hk]; [reflexivity|]). contradiction. }
  split; cycle 1.
  { intros props row v Hrow Hd Hv.
    unfold FlatUserRow in Hrow. cbn [Get bind] in Hrow. returned Hrow.
    injection Hrow as <-.
    split; [read_own; now apply or_else_falsy|].
    match goal with
    | Ho : joined_names (own (str "organisationUnits") props) = Normal ?o,
      Hr : joined_names (own (str "userRoles") props) = Normal ?r,
      Hg : joined_names (own (str "userGroups") props) = Normal ?g,
      Hl : GetOptional (own (str "userCredentials") props) _ = Normal ?l |- _ =>
        destruct (FlatUserRow_Obj ((str "disabled", v) :: props) o r g)
          as [l' [Hl' Hrow']];
          [rewrite own_next by reflexivity; exact Ho
          |rewrite own_next by reflexivity; exact Hr
          |rewrite own_next by reflexivity; exact Hg
          |];
          rewrite own_next in Hl' by reflexivity;
          rewrite Hl in Hl'; injection Hl' as <-
    end.
    eexists. split; [exact Hrow'|]. split.
    - read_own. now apply or_else_truthy.
    - intros k Hk. rewrite (own_here (str "disabled")).
      rewrite !(own_next _ (str "disabled")) by reflexivity.
      apply (own_elsewhere k (str "disabled") _ _
               [_; _; _; _; _; _; _; _; _; _; _] _ Hk). }
  intros props props' H. unfold FlatUserRow. cbn [Get bind].
  assert (Hk : forall k, In k source_keys -> own k props = own k props')
    by exact H.
  unfold source_keys, scalar_keys in Hk. cbn [app In] in Hk.
  rewrite !(Hk (str "id")), !(Hk (str "username")), !(Hk (str "firstName")),
    !(Hk (str "surname")), !(Hk (str "displayName")), !(Hk (str "created")),
    !(Hk (str "lastUpdated")), !(Hk (str "gender")), !(Hk (str "email")),
    !(Hk (str "phoneNumber")), !(Hk (str "jobTitle")), !(Hk (str "disabled")),
    !(Hk (str "organisationUnits")), !(Hk (str "userRoles")),
    !(Hk (str "userGroups")), !(Hk (str "userCredentials")) by tauto.
  reflexivity.
Qed.

(** X19: submit, then getData, to the end.  With the saved connection
    (each value as the form held it at submit time, or as it holds it now
    if that was empty), a response with a success status and a body whose
    users are raw user records, getData returns normally having called
    appendRows once with one row per user, in order, then doneCallback;
    fetchedData holds the same rows. *)
Theorem submit_then_getData_delivers (tableau : Tableau) (pg1 pg2 : Page)
    (r : Response) (json : value) (users : list value) :
  let base := pick (baseUrl_value (inputs pg1)) (baseUrl_value (inputs pg2)) in
  let user := pick (username_value (inputs pg1)) (username_value (inputs pg2)) in
  let pass := pick (password_value (inputs pg1)) (password_value (inputs pg2)) in
  latin1 (user ++ str ":" ++ pass) = true ->
  fetch (mkRequest (base ++ users_query)
                   (str "Basic " ++ b64_encode (user ++ str ":" ++ pass)))
  = Responds r ->
  ok r = true ->
  JSON_parse_text (body r) = Normal json ->
  Get json (str "users") = Normal (Arr users) ->
  Forall RawUserRecord users ->
  exists rows pg',
    getData fetch (fst (submitButton_click tableau pg1)) pg2
    = mkRun (Normal tt) [appendRows rows; doneCallback] pg' /\
    Forall2 (fun u row => FlatUserRow u = Normal row) users rows /\
    fetchedData pg' = rows.
Proof.
  intros base user pass Hl Hf Hok Hj HG HR.
  destruct (on_json_fulfils json users
              (send (mkRequest (base ++ users_query)
                               (str "Basic " ++ b64_encode (user ++ str ":" ++ pass)))
                    (showLoader pg2)) HG HR)
    as [rows [pg' [HO [H2 H3]]]].
  exists rows, pg'. split; [|split; assumption].
  apply (getData_fulfilled _ _ _ _ _ (submit_parses_back tableau pg1)).
  rewrite (fetchDataForWDC_parsed
             (ConnectionConfig (baseUrl_value (inputs pg1))
                               (username_value (inputs pg1))
                               (password_value (inputs pg1)))
             pg2 _ _ _ _ _ _
             (connection_pick _ _ _ pg2) (basic_auth_latin1 _ _ Hl) Hf Hok Hj).
  fold base user pass. rewrite HO. reflexivity.
Qed.

End Properties.

(* ================================================================== *)
(** * The properties on sample inputs *)

(** From here on the engine is the sample one. *)
#[local] Existing Instance sample.

(** C1, as first stated, fails: a record without an id gets a row whose id
    is undefined. *)
Lemma FlatUserRow_id_undefined :
  exists row,
    FlatUserRow (E := sample) (Obj anonymous_user) = Normal (Obj row) /\
    own (str "id") row = Undefined.
Proof.
  eexists. split; [vm_compute; reflexivity|]. reflexivity.
Qed.

(** The row of the scenario record has the 16 keys, with the defaulted and
    joined fields defined and the others copied. *)
Lemma FlatUserRow_fields_scenario :
  exists row,
    FlatUserRow (E := sample) (Obj scenario_user) = Normal (Obj row) /\
    map fst row = row_keys /\
    Forall (fun k => own k row <> Undefined) defaulted_keys /\
    Forall (fun k => own k row = own k scenario_user) copied_keys.
Proof.
  apply (FlatUserRow_fields (E := sample) scenario_user [] [] []);
    apply listed_relation, Forall2_nil.
Defined.

(** The scenario record lacks every optional field and takes every
    default. *)
Lemma optional_defaults_scenario :
  exists row,
    FlatUserRow (E := sample) (Obj scenario_user) = Normal (Obj row) /\
    own (str "gender") row = Str [] /\
    own (str "email") row = Str [] /\
    own (str "phone") row = Str [] /\
    own (str "jobTitle") row = Str [] /\
    own (str "disabled") row = Bool false /\
    own (str "lastLogin") row = Str [].
Proof.
  destruct (optional_defaults (E := sample) scenario_user [] [] [])
    as [row [Hrow [Hg [He [Hp [Hj [Hd [_ Hl]]]]]]]];
    try apply listed_relation, Forall2_nil.
  exists row. split; [exact Hrow|].
  split; [apply Hg; reflexivity|]. split; [apply He; reflexivity|].
  split; [apply Hp; reflexivity|]. split; [apply Hj; reflexivity|].
  split; [apply Hd; reflexivity|]. apply (Hl []); reflexivity.
Defined.

(** Two organisation units named A and B give [A; B]; the absent roles and
    the empty groups give the empty string. *)
Lemma relations_joined_two_units :
  exists row,
    FlatUserRow (E := sample) (Obj two_units_user) = Normal (Obj row) /\
    own (str "orgUnits") row = Str (str "A; B") /\
    own (str "roles") row = Str [] /\
    own (str "groups") row = Str [].
Proof.
  apply (relations_joined (E := sample) two_units_user [str "A"; str "B"] [] []).
  - apply listed_relation. repeat constructor.
  - apply absent_relation.
  - apply listed_relation, Forall2_nil.
Defined.



(** A 401 response: the fetch rejects with the HTTP error and getData
    would abort with [HTTP 401: Unauthorized]. *)
Lemma http_error_rejects_401 :
  fst (fetchDataForWDC (E := sample)
         (answering (mkResponse 401 (str "Unauthorized") []))
         demo_config blank_page)
  = Normal (Rejected (mkError Error (str "HTTP 401: Unauthorized"))).
Proof.
  exact (f_equal fst
           (proj1 (http_error_rejects (E := sample)
                     (answering (mkResponse 401 (str "Unauthorized") []))
                     demo_config blank_page
                     (str "https://play.dhis2.org/demo" ++ users_query)
                     (Str (str "admin")) (Str (str "district"))
                     (str "Basic YWRtaW46ZGlzdHJpY3Q=")
                     (mkResponse 401 (str "Unauthorized") [])
                     eq_refl eq_refl eq_refl eq_refl))).
Defined.

(** The request for the demo configuration. *)
Lemma request_url_demo :
  requests (snd (fetchDataForWDC (E := sample)
                   (answering (mkResponse 200 (str "OK") (str "{}")))
                   demo_config blank_page))
  = [mkRequest
       (str "https://play.dhis2.org/demo/api/users.json?fields=id,username,firstName,surname,displayName,created,lastUpdated,gender,email,phoneNumber,jobTitle,organisationUnits[id,name],userRoles[id,name],userGroups[id,name],userCredentials[username,lastLogin]&paging=false")
       (str "Basic YWRtaW46ZGlzdHJpY3Q=")].
Proof.
  apply (request_url (E := sample)
           (answering (mkResponse 200 (str "OK") (str "{}")))
           (str "https://play.dhis2.org/demo") (str "admin") (str "district")
           blank_page);
    try discriminate; reflexivity.
Defined.

(** A 200 response holding two different records, the scenario record
    (id u1, no organisation unit) and then the record with two organisation
    units (id u2): the fetch is fulfilled with two different rows, the row
    of u1 first and the row of u2 second. *)
Lemma rows_follow_users_two_users :
  exists row1 row2 pg',
    fetchDataForWDC (E := sample)
      (answering (mkResponse 200 (str "OK")
                    (users_body [Obj scenario_user; Obj two_units_user])))
      demo_config blank_page
    = (Normal (Fulfilled [Obj row1; Obj row2]), pg') /\
    FlatUserRow (E := sample) (Obj scenario_user) = Normal (Obj row1) /\
    FlatUserRow (E := sample) (Obj two_units_user) = Normal (Obj row2) /\
    (own (str "id") row1 = Str (str "u1") /\ own (str "orgUnits") row1 = Str []) /\
    (own (str "id") row2 = Str (str "u2") /\
     own (str "orgUnits") row2 = Str (str "A; B")) /\
    Obj row1 <> Obj row2.
Proof.
  destruct (proj2 (rows_follow_users (E := sample)
                     (answering (mkResponse 200 (str "OK")
                                   (users_body [Obj scenario_user; Obj two_units_user])))
                     demo_config blank_page
                     (str "https://play.dhis2.org/demo" ++ users_query)
                     (Str (str "admin")) (Str (str "district"))
                     (str "Basic YWRtaW46ZGlzdHJpY3Q=")
                     (mkResponse 200 (str "OK")
                        (users_body [Obj scenario_user; Obj two_units_user]))
                     (Obj [(str "users", Arr [Obj scenario_user; Obj two_units_user])])
                     [Obj scenario_user; Obj two_units_user]
                     eq_refl eq_refl eq_refl eq_refl eq_refl eq_refl))
    as [rows [pg' [Hrun [Hrows _]]]].
  - apply Forall_cons; [|apply Forall_cons; [|apply Forall_nil]].
    + apply (raw_user scenario_user [] [] []).
      * repeat (apply Forall_cons; [exact I|]). apply Forall_nil.
      * apply listed_relation, Forall2_nil.
      * apply listed_relation, Forall2_nil.
      * apply listed_relation, Forall2_nil.
      * apply held_credentials. exact I.
    + apply (raw_user two_units_user [str "A"; str "B"] [] []).
      * repeat (apply Forall_cons; [exact I|]). apply Forall_nil.
      * apply listed_relation. repeat constructor.
      * apply absent_relation.
      * apply listed_relation, Forall2_nil.
      * apply absent_credentials.
  - inversion Hrows as [|u1 r1 us1 rs1 H1 Hrest]; subst.
    inversion Hrest as [|u2 r2 us2 rs2 H2 Hnil]; subst.
    inversion Hnil; subst.
    vm_compute in H1. vm_compute in H2.
    injection H1 as <-. injection H2 as <-.
    eexists. eexists. exists pg'.
    split; [exact Hrun|]. split; [vm_compute; reflexivity|].
    split; [vm_compute; reflexivity|].
    split; [split; reflexivity|]. split; [split; reflexivity|].
    intros H. discriminate H.
Defined.

(** The scenario record has no disabled flag and its row says false; with
    [disabled: true] added, which the request does not select, the row says
    true and its id is the same. *)
Lemma mapping_reads_unselected_field_scenario :
  existsb (selects (str "disabled")) selector = false /\
  exists row row',
    FlatUserRow (E := sample) (Obj scenario_user) = Normal (Obj row) /\
    FlatUserRow (E := sample) (Obj ((str "disabled", Bool true) :: scenario_user))
    = Normal (Obj row') /\
    own (str "disabled") row = Bool false /\
    own (str "disabled") row' = Bool true /\
    own (str "id") row' = own (str "id") row.
Proof.
  split.
  - apply (proj1 (proj2 (mapping_reads_unselected_field (E := sample)))
             (str "disabled")).
    unfold source_keys, scalar_keys. cbn [app In]. tauto.
  - destruct (FlatUserRow_Obj (E := sample) scenario_user (Str []) (Str []) (Str [])
                eq_refl eq_refl eq_refl) as [lastLogin [_ Hrow]].
    destruct (proj2 (proj2 (proj2 (mapping_reads_unselected_field (E := sample))))
                scenario_user _ (Bool true) Hrow eq_refl eq_refl)
      as [Hd [row' [Hrow' [Hd' Hk]]]].
    eexists. exists row'.
    split; [exact Hrow|]. split; [exact Hrow'|]. split; [exact Hd|].
    split; [exact Hd'|]. apply Hk. intros H. discriminate H.
Defined.

(** The scenario of section 8 of the specification: the one record gives
    exactly one row, with id u1, empty orgUnits, roles, groups and
    lastLogin, and disabled false; the preview reports one user. *)
Lemma scenario_row :
  let run :=
    fetchDataForWDC
      (answering (mkResponse 200 (str "OK") (users_body [Obj scenario_user])))
      demo_config blank_page in
  fst run
  = Normal (Fulfilled [Obj [
      (str "id", Str (str "u1"));
      (str "username", Str (str "jdoe"));
      (str "firstName", Str (str "Jane"));
      (str "surname", Str (str "Doe"));
      (str "displayName", Str (str "Jane Doe"));
      (str "created", Str (str "2020-01-01"));
      (str "lastUpdated", Str (str "2020-01-02"));
      (str "gender", Str []);
      (str "email", Str []);
      (str "phone", Str []);
      (str "jobTitle", Str []);
      (str "disabled", Bool false);
      (str "orgUnits", Str []);
      (str "roles", Str []);
      (str "groups", Str []);
      (str "lastLogin", Str [])]]) /\
  textContent (status_line (snd run)) = str "Loaded 1 users".
Proof.
  split; vm_compute; reflexivity.
Qed.

(** A 200 response whose body is a web page, not JSON. *)
Lemma unparsable_body_rejects_html :
  exists e,
    fst (fetchDataForWDC
           (answering (mkResponse 200 (str "OK") (str "<html></html>")))
           demo_config blank_page)
    = Normal (Rejected e) /\
    name e = SyntaxError.
Proof.
  eexists. split.
  - exact (f_equal fst
             (proj1 (proj2 (unparsable_body_rejects
                       (answering (mkResponse 200 (str "OK") (str "<html></html>")))
                       demo_config blank_page
                       (str "https://play.dhis2.org/demo" ++ users_query)
                       (Str (str "admin")) (Str (str "district"))
                       (str "Basic YWRtaW46ZGlzdHJpY3Q=")
                       (mkResponse 200 (str "OK") (str "<html></html>"))
                       _ eq_refl eq_refl eq_refl eq_refl eq_refl)))).
  - reflexivity.
Defined.

(** No network: the fetch rejects with the error of fetch. *)
Lemma network_failure_rejects_offline :
  fst (fetchDataForWDC
         (fun _ => NetworkFailure (mkError TypeError (str "Failed to fetch")))
         demo_config blank_page)
  = Normal (Rejected (mkError TypeError (str "Failed to fetch"))).
Proof.
  exact (f_equal fst
           (proj1 (network_failure_rejects
                     (fun _ => NetworkFailure (mkError TypeError (str "Failed to fetch")))
                     demo_config blank_page
                     (str "https://play.dhis2.org/demo" ++ users_query)
                     (Str (str "admin")) (Str (str "district"))
                     (str "Basic YWRtaW46ZGlzdHJpY3Q=")
                     (mkError TypeError (str "Failed to fetch"))
                     eq_refl eq_refl eq_refl))).
Defined.

(** The rejection on a 401 response is of the second kind, and the status
    line shows it. *)
Lemma rejection_kinds_401 :
  status_line
    (snd (fetchDataForWDC (answering (mkResponse 401 (str "Unauthorized") []))
            demo_config blank_page))
  = mkStatus (str "HTTP 401: Unauthorized") (str "status error") (str "block").
Proof.
  exact (proj1 (rejection_kinds
                  (answering (mkResponse 401 (str "Unauthorized") []))
                  demo_config blank_page
                  (snd (fetchDataForWDC
                          (answering (mkResponse 401 (str "Unauthorized") []))
                          demo_config blank_page))
                  (str "https://play.dhis2.org/demo" ++ users_query)
                  (Str (str "admin")) (Str (str "district"))
                  (str "Basic YWRtaW46ZGlzdHJpY3Q=")
                  (HttpError 401 (str "Unauthorized"))
                  eq_refl eq_refl eq_refl)).
Defined.

(** After the scenario's fetch the loader is stopped and the bar full. *)
Lemma settled_fetch_page_scenario :
  loader
    (snd (fetchDataForWDC
            (answering (mkResponse 200 (str "OK") (users_body [Obj scenario_user])))
            demo_config blank_page))
  = mkLoader (str "block") (str "block") 100 false true.
Proof.
  exact (proj1 (settled_fetch_page
                  (answering (mkResponse 200 (str "OK")
                                         (users_body [Obj scenario_user])))
                  demo_config blank_page
                  (snd (fetchDataForWDC
                          (answering (mkResponse 200 (str "OK")
                                                 (users_body [Obj scenario_user])))
                          demo_config blank_page))
                  (fst (fetch_chain
                          (answering (mkResponse 200 (str "OK")
                                                 (users_body [Obj scenario_user]))
                             (mkRequest (str "https://play.dhis2.org/demo" ++ users_query)
                                        (str "Basic YWRtaW46ZGlzdHJpY3Q=")))
                          (send (mkRequest (str "https://play.dhis2.org/demo" ++ users_query)
                                           (str "Basic YWRtaW46ZGlzdHJpY3Q="))
                                (showLoader blank_page))))
                  eq_refl)).
Defined.

(** A password with a euro sign: getData throws and leaves the loader on. *)
Lemma getData_throws_on_btoa_euro :
  getData (answering (mkResponse 200 (str "OK") (str "{}")))
    (mkTableau
       (JSON_stringify
          (ConnectionConfig (str "https://play.dhis2.org/demo") (str "admin") [8364]))
       (Str []))
    blank_page
  = mkRun (Throw (mkError InvalidCharacterError InvalidCharacter_message)) []
          (showLoader blank_page).
Proof.
  apply (getData_throws_on_btoa
           (answering (mkResponse 200 (str "OK") (str "{}")))
           _ blank_page (str "https://play.dhis2.org/demo") (str "admin") [8364]);
    try discriminate; reflexivity.
Defined.

(** A record whose id cannot be printed: rejected, yet stored. *)
Lemma preview_failure_keeps_new_rows_opaque_id :
  exists pg',
    fetchDataForWDC
      (answering (mkResponse 200 (str "OK") (users_body [Obj opaque_id_user])))
      demo_config blank_page
    = (Normal (Rejected (mkError TypeError (TypeError_message NotPrimitive))), pg') /\
    List.length (fetchedData pg') = 1%nat /\
    tbody_innerHTML pg' = [].
Proof.
  destruct (preview_failure_keeps_new_rows
              (answering (mkResponse 200 (str "OK") (users_body [Obj opaque_id_user])))
              demo_config blank_page
              (str "https://play.dhis2.org/demo" ++ users_query)
              (Str (str "admin")) (Str (str "district"))
              (str "Basic YWRtaW46ZGlzdHJpY3Q=")
              (mkResponse 200 (str "OK") (users_body [Obj opaque_id_user]))
              (Obj [(str "users", Arr [Obj opaque_id_user])])
              [Obj opaque_id_user] _
              (mkError TypeError (TypeError_message NotPrimitive))
              eq_refl eq_refl eq_refl eq_refl eq_refl eq_refl eq_refl eq_refl)
    as [pg' [H1 [_ [H2 [H3 _]]]]].
  exists pg'. split; [exact H1|]. split; [now rewrite H2 | exact H3].
Defined.

(** A null among the users rejects the fetch of the scenario's record too. *)
Lemma bad_record_rejects_all_null :
  exists e pg',
    fetchDataForWDC
      (answering (mkResponse 200 (str "OK") (users_body [Obj scenario_user; Null])))
      demo_config blank_page
    = (Normal (Rejected e), pg') /\
    name e = TypeError /\
    fetchedData pg' = [].
Proof.
  destruct (bad_record_rejects_all
              (answering (mkResponse 200 (str "OK")
                                     (users_body [Obj scenario_user; Null])))
              demo_config blank_page
              (str "https://play.dhis2.org/demo" ++ users_query)
              (Str (str "admin")) (Str (str "district"))
              (str "Basic YWRtaW46ZGlzdHJpY3Q=")
              (mkResponse 200 (str "OK") (users_body [Obj scenario_user; Null]))
              (Obj [(str "users", Arr [Obj scenario_user; Null])])
              [Obj scenario_user; Null] Null
              (mkError TypeError (TypeError_message (ReadOfNull (str "id"))))
              eq_refl eq_refl eq_refl eq_refl eq_refl eq_refl
              (or_intror (or_introl eq_refl)) eq_refl)
    as [e [pg' [H1 [H2 [H3 _]]]]].
  exists e, pg'. split; [exact H1|]. split; assumption.
Defined.

(** No user: a success with no row. *)
Lemma empty_users_succeed_demo :
  exists pg',
    fetchDataForWDC (answering (mkResponse 200 (str "OK") (users_body [])))
      demo_config blank_page
    = (Normal (Fulfilled []), pg') /\
    textContent (status_line pg') = str "Loaded 0 users".
Proof.
  destruct (empty_users_succeed
              (answering (mkResponse 200 (str "OK") (users_body [])))
              demo_config blank_page
              (str "https://play.dhis2.org/demo" ++ users_query)
              (Str (str "admin")) (Str (str "district"))
              (str "Basic YWRtaW46ZGlzdHJpY3Q=")
              (mkResponse 200 (str "OK") (users_body []))
              (Obj [(str "users", Arr [])])
              eq_refl eq_refl eq_refl eq_refl eq_refl eq_refl)
    as [pg' [H1 [_ [_ [H2 _]]]]].
  exists pg'. split; assumption.
Defined.

(** Units A, one without a name, and B; null roles; no groups. *)
Lemma relations_joined_pieces_gaps :
  exists row,
    FlatUserRow (Obj gaps_user) = Normal (Obj row) /\
    own (str "orgUnits") row = Str (str "A; ; B") /\
    own (str "roles") row = Str [] /\
    own (str "groups") row = Str [].
Proof.
  apply (relations_joined_pieces gaps_user [str "A"; []; str "B"] [] []).
  - apply array_relation.
    repeat (apply Forall2_cons;
            [eexists; split; [reflexivity | constructor]|]).
    apply Forall2_nil.
  - apply falsy_relation. reflexivity.
  - apply falsy_relation. reflexivity.
Defined.

(** A gender is kept, a null email replaced, a set flag kept, null
    credentials tolerated. *)
Lemma optional_values_mixed :
  exists row,
    FlatUserRow (Obj mixed_user) = Normal (Obj row) /\
    own (str "gender") row = Str (str "F") /\
    own (str "email") row = Str [] /\
    own (str "disabled") row = Bool true /\
    own (str "lastLogin") row = Str [].
Proof.
  destruct (optional_values_by_truthiness mixed_user [] [] [])
    as [row [Hrow [Hf [Hn _]]]]; try apply absent_relation.
  exists row. split; [exact Hrow|].
  rewrite Forall_forall in Hf.
  destruct (Hf (str "gender", str "gender", Str []) (or_introl eq_refl))
    as [Hg _].
  destruct (Hf (str "email", str "email", Str [])
               (or_intror (or_introl eq_refl))) as [_ He].
  destruct (Hf (str "disabled", str "disabled", Bool false)
               (or_intror (or_intror (or_intror (or_intror (or_introl eq_refl))))))
    as [Hd _].
  split; [exact (Hg eq_refl)|]. split; [exact (He eq_refl)|].
  split; [exact (Hd eq_refl)|]. exact (Hn eq_refl).
Defined.

(** The scenario's row fits the schema. *)
Lemma rows_fit_schema_scenario :
  exists cols row,
    calls (getSchema blank_page)
    = [schemaCallback [TableInfo.mk (str "DHIS2Users") cols]] /\
    FlatUserRow (Obj scenario_user) = Normal (Obj row) /\
    (forall k, In k (map ColumnInfo.id cols) <-> In k (map fst row)).
Proof.
  destruct (FlatUserRow_Obj scenario_user (Str []) (Str []) (Str [])
              eq_refl eq_refl eq_refl) as [lastLogin [_ Hrow]].
  destruct (rows_fit_schema blank_page (Obj scenario_user) _ Hrow)
    as [cols [row' [Hc [Hr [_ [_ Hk]]]]]].
  exists cols, row'. split; [exact Hc|].
  split; [rewrite <- Hr; exact Hrow | exact Hk].
Defined.

(** Saved on the demo page, used on a page whose form is blank. *)
Lemma saved_configuration_is_used_demo :
  requests
    (page (getData (answering (mkResponse 200 (str "OK") (str "{}")))
             (fst (submitButton_click (mkTableau Undefined Undefined) demo_page))
             blank_page))
  = [mkRequest (str "https://play.dhis2.org/demo" ++ users_query)
               (str "Basic YWRtaW46ZGlzdHJpY3Q=")].
Proof.
  exact (proj2 (saved_configuration_is_used
                  (answering (mkResponse 200 (str "OK") (str "{}")))
                  (mkTableau Undefined Undefined) demo_page blank_page eq_refl)).
Defined.

(** The fetch button on the demo page. *)
Lemma preview_uses_inputs_demo :
  requests (snd (fetchButton_click
                   (answering (mkResponse 200 (str "OK") (str "{}"))) demo_page))
  = [mkRequest (str "https://play.dhis2.org/demo" ++ users_query)
               (str "Basic YWRtaW46ZGlzdHJpY3Q=")].
Proof.
  exact (preview_uses_inputs
           (answering (mkResponse 200 (str "OK") (str "{}"))) demo_page eq_refl).
Defined.

(** Markup in a username reaches the table body as it is. *)
Lemma preview_is_unescaped_markup :
  exists pg' before after,
    updateDataTable [Obj markup_user] blank_page = Normal pg' /\
    tbody_innerHTML pg'
    = before ++ str "<td>" ++ str "<img src=x onerror=alert(1)>" ++ str "</td>"
      ++ after.
Proof.
  apply (preview_is_unescaped [Obj markup_user] markup_user (str "username")).
  - apply Forall_cons; [|apply Forall_nil].
    exists markup_user. split; [reflexivity|].
    repeat (apply Forall_cons; [exact I|]). apply Forall_nil.
  - left. reflexivity.
  - right. left. reflexivity.
  - reflexivity.
Defined.

(** Saved on the demo page, fetched later: the scenario's record is
    delivered. *)
Lemma submit_then_getData_delivers_scenario :
  exists rows pg',
    getData (answering (mkResponse 200 (str "OK") (users_body [Obj scenario_user])))
      (fst (submitButton_click (mkTableau Undefined Undefined) demo_page))
      blank_page
    = mkRun (Normal tt) [appendRows rows; doneCallback] pg' /\
    List.length rows = 1%nat.
Proof.
  destruct (submit_then_getData_delivers
              (answering (mkResponse 200 (str "OK") (users_body [Obj scenario_user])))
              (mkTableau Undefined Undefined) demo_page blank_page
              (mkResponse 200 (str "OK") (users_body [Obj scenario_user]))
              (Obj [(str "users", Arr [Obj scenario_user])])
              [Obj scenario_user]
              eq_refl eq_refl eq_refl eq_refl eq_refl)
    as [rows [pg' [H1 [H2 _]]]].
  - apply Forall_cons; [|apply Forall_nil].
    apply (raw_user scenario_user [] [] []).
    + repeat (apply Forall_cons; [exact I|]). apply Forall_nil.
    + apply listed_relation, Forall2_nil.
    + apply listed_relation, Forall2_nil.
    + apply listed_relation, Forall2_nil.
    + apply held_credentials. exact I.
  - exists rows, pg'. split; [exact H1|].
    symmetry. exact (Forall2_length H2).
Defined.
